(** * Frame sampler: [utils/grame_extractor.py]

    A shallow embedding of [extract_frames], the single function of the
    repository, and the properties of its target-index computation and of its
    forward scan.

    Modelling conventions.
    - Python integers are [Z].
    - [math.floor(i * total_frames / num_frames)].  Python evaluates the
      true quotient in binary64 before flooring it; [Py.floor_truediv]
      follows it (nearest binary64, ties to even), and
      [frame_indices_binary64] is the index list as the script computes it.
      [Py.floor_div] is the floor of the exact quotient; the two agree while
      [i * total_frames < 2^53] ([floor_truediv_exact]).
    - [extract_frames_on] is the script's function on a platform: the
      answer of [os.makedirs], the capture object [cv2.VideoCapture] builds,
      the double that [cap.get] returns.  [extract_frames] is the same
      function where [os.makedirs] returned, the reported count is a finite
      number and the quotients are exact; [extract_frames_on_exact] relates
      the two.  The theorems on the scan are stated on [extract_frames].
    - The file system and the console are not modelled as stores; every call
      that touches them is recorded, in program order, in a log of effects.
      [cv2.imwrite] reports a failure by the flag it returns, which the
      script ignores. *)

From Stdlib Require Import ZArith List String Ascii Bool Lia DecimalString.
From Stdlib Require DecimalPos DecimalZ.
From Equations Require Import Equations.
From Equations.Prop Require Import Logic.
Import ListNotations.

Local Open Scope string_scope.
Local Open Scope list_scope.
Local Open Scope Z_scope.

(** ** Python built-ins used by the script *)

Module Py.

(** [range(n)] for an integer [n]: empty when [n <= 0]. *)
Definition range (n : Z) : list Z :=
  map Z.of_nat (seq 0 (Z.to_nat n)).

(** [l[i]]: a negative index counts from the end, anything outside
    [-len(l) .. len(l)-1] raises IndexError ([None] here). *)
Definition getitem {A : Type} (l : list A) (i : Z) : option A :=
  let n := Z.of_nat (List.length l) in
  if 0 <=? i then nth_error l (Z.to_nat i)
  else if - n <=? i then nth_error l (Z.to_nat (n + i))
  else None.

(** The floor of the exact quotient of [a] by [b] (Python's [a // b]). *)
Definition floor_div (a b : Z) : Z := a / b.

(** [a / b] for integers [a >= 0] and [b > 0], the only arguments the script
    divides: the binary64 number nearest to the exact quotient, ties to
    even, as the pair [(m, e)] that stands for [m * 2^e].  The mantissa [m]
    has 53 bits ([2^52 <= m <= 2^53]) unless [a = 0].  The exponent is not
    bounded: the script's quotients are below the reported count, itself a
    finite double, so they never overflow, and a quotient too small for a
    normal number is below 1 here and there. *)
Definition scaled (a b e : Z) : Z * Z :=
  if 0 <=? e then (a, b * 2 ^ e) else (a * 2 ^ (- e), b).

Definition round_half_even (num den : Z) : Z :=
  let q := num / den in
  let r := num mod den in
  if 2 * r <? den then q
  else if den <? 2 * r then q + 1
  else if Z.even q then q else q + 1.

Definition truediv (a b : Z) : Z * Z :=
  if a =? 0 then (0, 0)
  else
    let e0 := Z.log2 a - Z.log2 b - 52 in
    let '(n0, d0) := scaled a b e0 in
    let e := if 2 ^ 52 * d0 <=? n0 then e0 else e0 - 1 in
    let '(num, den) := scaled a b e in
    (round_half_even num den, e).

(** [math.floor(x)] of the binary64 number [x = m * 2^e]. *)
Definition math_floor (x : Z * Z) : Z :=
  let '(m, e) := x in
  if 0 <=? e then m * 2 ^ e else m / 2 ^ (- e).

(** [math.floor(a / b)] as the script evaluates it. *)
Definition floor_truediv (a b : Z) : Z := math_floor (truediv a b).

(** [str(z)] / [f"{z}"]. *)
Definition str (z : Z) : string := NilZero.string_of_int (Z.to_int z).

Fixpoint zeros (n : nat) : string :=
  match n with
  | O => EmptyString
  | S k => String "0" (zeros k)
  end.

(** [f"{z:04d}"]: zero padding to width 4, the sign counted in the width. *)
Definition format_04d (z : Z) : string :=
  if z <? 0 then
    let d := str (- z) in
    ("-" ++ zeros (3 - String.length d) ++ d)%string
  else
    let d := str z in
    (zeros (4 - String.length d) ++ d)%string.

Definition startswith_sep (s : string) : bool :=
  match s with
  | String "/" _ => true
  | _ => false
  end.

Fixpoint endswith_sep (s : string) : bool :=
  match s with
  | EmptyString => false
  | String c EmptyString => Ascii.eqb c "/"
  | String _ r => endswith_sep r
  end.

(** [os.path.join(a, b)] of posixpath, two components. *)
Definition os_path_join (a b : string) : string :=
  if startswith_sep b then b
  else if String.eqb a EmptyString || endswith_sep a then (a ++ b)%string
  else (a ++ "/" ++ b)%string.

End Py.

(** ** The decoding backend *)

Section Sampler.

Variable Frame : Type.

(** A [cv2.VideoCapture] object.  [frame_count] is the integer that
    [int(cap.get(cv2.CAP_PROP_FRAME_COUNT))] evaluates to; nothing ties it to
    the number of frames the source goes on to yield.  [stream] lists what
    the next calls of [read()] return: [Some frame] for [(True, frame)],
    [None] for [(False, None)]; once the list is used up every read fails. *)
Record VideoCapture : Type := mkCapture {
  opened : bool;
  frame_count : Z;
  stream : list (option Frame)
}.

Definition isOpened (cap : VideoCapture) : bool := opened cap.

(** [int(cap.get(cv2.CAP_PROP_FRAME_COUNT))] *)
Definition get_frame_count (cap : VideoCapture) : Z := frame_count cap.

Definition read (cap : VideoCapture) : option Frame * VideoCapture :=
  match stream cap with
  | [] => (None, cap)
  | ret :: rest => (ret, mkCapture (opened cap) (frame_count cap) rest)
  end.

(** ** Effects, exceptions, results *)

Inductive Effect : Type :=
| makedirs (path : string)
| VideoCapture_open (path : string)
| imwrite (filename : string) (img : Frame)
| release
| print (line : string).

Inductive Exception : Type :=
| RuntimeError (msg : string)
| IndexError
| FileNotFoundError
| OSError (strerror : string)
| ValueError
| OverflowError.

(** What a call of [extract_frames] leaves behind.  [Returned n log]: the
    call returned, [n] is the value of [extracted] when the summary line was
    printed.  [Raised e log]: the exception [e] left the function.  In both
    [log] is the list of effects performed, oldest first. *)
Inductive Result : Type :=
| Returned (n : Z) (log : list Effect)
| Raised (e : Exception) (log : list Effect).

(** ** The scan loop *)

(** The variables live across the [while] loop. *)
Record State : Type := mkState {
  cap : VideoCapture;
  extracted : Z;
  current_frame : Z;
  target_idx : Z;
  log : list Effect
}.

Inductive Control : Type :=
| Continue (st : State)
| Break (st : State)
| Throw (e : Exception) (st : State).

Inductive LoopExit : Type :=
| Exited (st : State)
| Threw (e : Exception) (st : State).

Section Loop.

Variables (output_dir : string) (num_frames : Z) (frame_indices : list Z).

(** [cap.isOpened() and target_idx < num_frames] *)
Definition loop_cond (st : State) : bool :=
  isOpened (cap st) && (target_idx st <? num_frames).

Definition frame_filename (k : Z) : string :=
  Py.os_path_join output_dir
                  ("frame_" ++ Py.format_04d k ++ ".png")%string.

(** One pass through the body of the [while]. *)
Definition loop_body (st : State) : Control :=
  let '(ret, cap') := read (cap st) in
  match ret with
  | None =>
      Break (mkState cap' (extracted st) (current_frame st)
                     (target_idx st) (log st))
  | Some frame =>
      match Py.getitem frame_indices (target_idx st) with
      | None =>
          Throw IndexError
                (mkState cap' (extracted st) (current_frame st)
                         (target_idx st) (log st))
      | Some target =>
          if current_frame st =? target then
            Continue
              (mkState cap' (extracted st + 1) (current_frame st + 1)
                       (target_idx st + 1)
                       (log st ++ [imwrite (frame_filename (target_idx st)) frame]))
          else
            Continue (mkState cap' (extracted st) (current_frame st + 1)
                              (target_idx st) (log st))
      end
  end.

(** [while cap.isOpened() and target_idx < num_frames: ...]; every
    iteration that does not leave the loop consumes one read. *)
Equations? while_loop (st : State) : LoopExit
  by wf (List.length (stream (cap st))) lt :=
  while_loop st with loop_cond st := {
    | false => Exited st
    | true with inspect (loop_body st) := {
        | exist _ (Continue st') _ => while_loop st'
        | exist _ (Break st') _ => Exited st'
        | exist _ (Throw e st') _ => Threw e st' } }.
Proof.
  revert e. unfold loop_body, read; clear while_loop.
  destruct (stream (cap st)) as [|[frame|] rest]; try discriminate.
  destruct (Py.getitem frame_indices (target_idx st)) as [target|];
    try discriminate.
  destruct (current_frame st =? target); intros [= <-]; simpl; lia.
Qed.

End Loop.

(** The states in which the head of the [while] is reached, starting from
    [st0]: [st0] itself, and the state left by a pass through the body that
    neither broke out nor raised. *)
Inductive iterates (output_dir : string) (num_frames : Z)
    (frame_indices : list Z) (st0 : State) : State -> Prop :=
| iterates_enter : iterates output_dir num_frames frame_indices st0 st0
| iterates_again (st st' : State) :
    iterates output_dir num_frames frame_indices st0 st ->
    loop_cond num_frames st = true ->
    loop_body output_dir frame_indices st = Continue st' ->
    iterates output_dir num_frames frame_indices st0 st'.

(** The three ways out of the [while], from the state [st1] in which its head
    is reached: the condition fails, [break], or an exception raised by the
    body. *)
Inductive leaves (output_dir : string) (num_frames : Z)
    (frame_indices : list Z) (st1 : State) : LoopExit -> Prop :=
| leaves_cond :
    loop_cond num_frames st1 = false ->
    leaves output_dir num_frames frame_indices st1 (Exited st1)
| leaves_break (st2 : State) :
    loop_cond num_frames st1 = true ->
    loop_body output_dir frame_indices st1 = Break st2 ->
    leaves output_dir num_frames frame_indices st1 (Exited st2)
| leaves_throw (e : Exception) (st2 : State) :
    loop_cond num_frames st1 = true ->
    loop_body output_dir frame_indices st1 = Throw e st2 ->
    leaves output_dir num_frames frame_indices st1 (Threw e st2).

(** The frames a source yields: the results of its reads up to the first
    one that fails. *)
Fixpoint yielded (s : list (option Frame)) : list Frame :=
  match s with
  | Some frame :: rest => frame :: yielded rest
  | _ => []
  end.

(** What a log shows on the console, and which image files it wrote. *)
Fixpoint printed (l : list Effect) : list string :=
  match l with
  | [] => []
  | print line :: rest => line :: printed rest
  | _ :: rest => printed rest
  end.

Fixpoint written (l : list Effect) : list (string * Frame) :=
  match l with
  | [] => []
  | imwrite filename img :: rest => (filename, img) :: written rest
  | _ :: rest => written rest
  end.

(** ** The function *)

(** [math.floor(i * total_frames / num_frames) for i in range(num_frames)]
    with the quotients taken exactly; [frame_indices_binary64] below is the
    list with the quotients rounded as the script rounds them, and the two
    are equal while [(num_frames - 1) * total_frames < 2^53]. *)
Definition frame_indices_of (total_frames num_frames : Z) : list Z :=
  map (fun i => Py.floor_div (i * total_frames) num_frames)
      (Py.range num_frames).

Definition summary (extracted : Z) (output_dir : string) : string :=
  ("Extracted " ++ Py.str extracted ++ " frames to '" ++ output_dir ++ "'")%string.

(** The state in which the [while] is entered. *)
Definition initial_state (cap : VideoCapture) (video_path output_dir : string)
  : State :=
  mkState cap 0 0 0 [makedirs output_dir; VideoCapture_open video_path].

(** The function where [os.makedirs] returned and [int()] accepted the
    reported count, with exact quotients.  [cv2_VideoCapture] is the
    backend: the capture object that [cv2.VideoCapture(path)] builds for each
    path.  [extract_frames_on] below is the function on any platform. *)
Definition extract_frames (cv2_VideoCapture : string -> VideoCapture)
    (video_path output_dir : string) (num_frames : Z) : Result :=
  let cap := cv2_VideoCapture video_path in
  let log1 := [makedirs output_dir; VideoCapture_open video_path] in
  if negb (isOpened cap) then
    Raised (RuntimeError ("Cannot open video: " ++ video_path)%string) log1
  else
    let total_frames := get_frame_count cap in
    if total_frames <=? 0 then
      Raised (RuntimeError "Could not determine total frame count") log1
    else
      let frame_indices := frame_indices_of total_frames num_frames in
      match while_loop output_dir num_frames frame_indices
                       (initial_state cap video_path output_dir) with
      | Exited st =>
          Returned (extracted st)
                   (log st ++ [release;
                               print (summary (extracted st) output_dir)])
      | Threw e st => Raised e (log st)
      end.

(** ** The function on a platform *)

(** The index list as the script computes it, in binary64. *)
Definition frame_indices_binary64 (total_frames num_frames : Z) : list Z :=
  map (fun i => Py.floor_truediv (i * total_frames) num_frames)
      (Py.range num_frames).

(** The double that [cap.get(cv2.CAP_PROP_FRAME_COUNT)] returns, as [int()]
    sees it: a finite number, given by its truncation toward zero, a NaN, or
    an infinity. *)
Inductive PropertyValue : Type :=
| finite (truncated : Z)
| nan
| infinite.

(** [int(x)] of a double. *)
Definition int_of_double (x : PropertyValue) : Exception + Z :=
  match x with
  | finite z => inr z
  | nan => inl ValueError
  | infinite => inl OverflowError
  end.

(** The object [cv2.VideoCapture(path)] builds. *)
Record Decoder : Type := mkDecoder {
  decoder_opened : bool;
  CAP_PROP_FRAME_COUNT : PropertyValue;
  decoder_stream : list (option Frame)
}.

(** The platform the script runs on.  [makedirs_error path] is the exception
    with which the file system answers [os.makedirs(path, exist_ok=True)], if
    it does. *)
Record Platform : Type := mkPlatform {
  makedirs_error : string -> option Exception;
  VideoCapture_of : string -> Decoder
}.

(** [os.makedirs(path, exist_ok=True)]: the empty path is never created,
    [mkdir] fails on it with ENOENT. *)
Definition os_makedirs (platform : Platform) (path : string)
  : option Exception :=
  if String.eqb path EmptyString then Some FileNotFoundError
  else makedirs_error platform path.

Definition extract_frames_on (platform : Platform)
    (video_path output_dir : string) (num_frames : Z) : Result :=
  match os_makedirs platform output_dir with
  | Some e => Raised e []
  | None =>
      let decoder := VideoCapture_of platform video_path in
      let log1 := [makedirs output_dir; VideoCapture_open video_path] in
      if negb (decoder_opened decoder) then
        Raised (RuntimeError ("Cannot open video: " ++ video_path)%string) log1
      else
        match int_of_double (CAP_PROP_FRAME_COUNT decoder) with
        | inl e => Raised e log1
        | inr total_frames =>
            if total_frames <=? 0 then
              Raised (RuntimeError "Could not determine total frame count")
                     log1
            else
              let cap := mkCapture true total_frames (decoder_stream decoder) in
              let frame_indices :=
                frame_indices_binary64 total_frames num_frames in
              match while_loop output_dir num_frames frame_indices
                               (initial_state cap video_path output_dir) with
              | Exited st =>
                  Returned (extracted st)
                           (log st ++
                            [release;
                             print (summary (extracted st) output_dir)])
              | Threw e st => Raised e (log st)
              end
        end
  end.

End Sampler.

Arguments mkCapture {Frame}.
Arguments opened {Frame}.
Arguments frame_count {Frame}.
Arguments stream {Frame}.
Arguments isOpened {Frame}.
Arguments get_frame_count {Frame}.
Arguments read {Frame}.
Arguments makedirs {Frame}.
Arguments VideoCapture_open {Frame}.
Arguments imwrite {Frame}.
Arguments release {Frame}.
Arguments print {Frame}.
Arguments Returned {Frame}.
Arguments Raised {Frame}.
Arguments mkState {Frame}.
Arguments cap {Frame}.
Arguments extracted {Frame}.
Arguments current_frame {Frame}.
Arguments target_idx {Frame}.
Arguments log {Frame}.
Arguments Continue {Frame}.
Arguments Break {Frame}.
Arguments Throw {Frame}.
Arguments Exited {Frame}.
Arguments Threw {Frame}.
Arguments loop_cond {Frame}.
Arguments loop_body {Frame}.
Arguments while_loop {Frame}.
Arguments extract_frames {Frame}.

Arguments initial_state {Frame}.
Arguments iterates {Frame}.
Arguments leaves {Frame}.
Arguments yielded {Frame}.
Arguments printed {Frame}.
Arguments written {Frame}.
Arguments mkDecoder {Frame}.
Arguments decoder_opened {Frame}.
Arguments CAP_PROP_FRAME_COUNT {Frame}.
Arguments decoder_stream {Frame}.
Arguments mkPlatform {Frame}.
Arguments makedirs_error {Frame}.
Arguments VideoCapture_of {Frame}.
Arguments os_makedirs {Frame}.
Arguments extract_frames_on {Frame}.

(** * Properties *)

(** ** Indexing and the target index list *)

Lemma getitem_nth {A : Type} (l : list A) (k : Z) (d : A) :
  0 <= k < Z.of_nat (List.length l) ->
  Py.getitem l k = Some (nth (Z.to_nat k) l d).
Proof.
  intros Hk. unfold Py.getitem.
  destruct (Z.leb_spec 0 k); [|lia].
  apply nth_error_nth'. lia.
Qed.

Lemma getitem_Some {A : Type} (l : list A) (k : Z) (d x : A) :
  0 <= k ->
  Py.getitem l k = Some x ->
  k < Z.of_nat (List.length l) /\ nth (Z.to_nat k) l d = x.
Proof.
  intros Hk. unfold Py.getitem.
  destruct (Z.leb_spec 0 k); [|lia].
  intros Hx. split.
  - assert (Z.to_nat k < List.length l)%nat; [|lia].
    apply nth_error_Some. congruence.
  - now apply nth_error_nth.
Qed.

Lemma range_length (n : Z) : List.length (Py.range n) = Z.to_nat n.
Proof. unfold Py.range. now rewrite length_map, length_seq. Qed.

Lemma range_nth (n : Z) (i : nat) :
  (i < Z.to_nat n)%nat -> nth i (Py.range n) 0 = Z.of_nat i.
Proof.
  intros Hi. unfold Py.range.
  change 0 with (Z.of_nat 0). rewrite map_nth, seq_nth; auto.
Qed.

Lemma frame_indices_length (T N : Z) :
  List.length (frame_indices_of T N) = Z.to_nat N.
Proof. unfold frame_indices_of. now rewrite length_map, range_length. Qed.

Lemma frame_indices_nth (T N k : Z) :
  0 <= k < N ->
  nth (Z.to_nat k) (frame_indices_of T N) 0 = k * T / N.
Proof.
  intros Hk. unfold frame_indices_of, Py.floor_div.
  rewrite nth_indep with (d' := 0 * T / N)
    by (rewrite length_map, range_length; lia).
  refine (eq_trans (map_nth (fun i => i * T / N) (Py.range N) 0 _) _).
  rewrite range_nth by lia.
  now rewrite Z2Nat.id by lia.
Qed.

Lemma frame_indices_getitem (T N k : Z) :
  0 <= k < N ->
  Py.getitem (frame_indices_of T N) k = Some (k * T / N).
Proof.
  intros Hk.
  rewrite getitem_nth with (d := 0) by (rewrite frame_indices_length; lia).
  now rewrite frame_indices_nth.
Qed.

Lemma floor_div_mono (T N i j : Z) :
  0 < T -> 0 < N -> i <= j -> i * T / N <= j * T / N.
Proof. intros HT HN Hij. apply Z.div_le_mono; nia. Qed.

(** With no more targets than frames, consecutive targets differ. *)
Lemma floor_div_strict (T N i j : Z) :
  0 < N <= T -> i < j -> i * T / N < j * T / N.
Proof.
  intros HN Hij.
  apply Z.lt_le_trans with (i * T / N + 1); [lia|].
  rewrite <- Z.div_add by lia.
  apply Z.div_le_mono; nia.
Qed.

(** ** Logs *)

Lemma printed_app {Frame : Type} (l1 l2 : list (Effect Frame)) :
  printed (l1 ++ l2) = printed l1 ++ printed l2.
Proof. induction l1 as [|[] l1 IH]; simpl; congruence. Qed.

Lemma written_app {Frame : Type} (l1 l2 : list (Effect Frame)) :
  written (l1 ++ l2) = written l1 ++ written l2.
Proof. induction l1 as [|[] l1 IH]; simpl; congruence. Qed.

Lemma all_below_or_not (l : list Z) (bound : Z) :
  (forall t, In t l -> t < bound) \/ (exists t, In t l /\ bound <= t).
Proof.
  induction l as [|x l [IH|(t & Hin & Ht)]].
  - left. intros t [].
  - destruct (Z.lt_ge_cases x bound) as [Hx|Hx].
    + left. intros t [<-|Hin]; auto.
    + right. exists x. split; [now left|exact Hx].
  - right. exists t. split; [now right|exact Ht].
Qed.

(** ** The scan loop *)

Section Scan.

Context {Frame : Type}.
Variables (output_dir : string) (num_frames : Z) (frame_indices : list Z).

Local Notation "'cond'" := (loop_cond num_frames).
Local Notation "'body'" := (loop_body output_dir frame_indices).
Local Notation "'loop'" := (while_loop output_dir num_frames frame_indices).

Lemma while_loop_step (st : State Frame) :
  loop st =
  if cond st then
    match body st with
    | Continue st' => loop st'
    | Break st' => Exited st'
    | Throw e st' => Threw e st'
    end
  else Exited st.
Proof.
  funelim (while_loop output_dir num_frames frame_indices st).
  all: match goal with Hc : loop_cond _ _ = _ |- _ => rewrite Hc end.
  all: try match goal with Hb : loop_body _ _ _ = _ |- _ => rewrite Hb end.
  all: reflexivity.
Qed.

(** *** One pass through the body, case by case *)

Lemma body_Continue (st st' : State Frame) :
  body st = Continue st' ->
  exists frame rest target,
    stream (cap st) = Some frame :: rest /\
    cap st' = mkCapture (opened (cap st)) (frame_count (cap st)) rest /\
    Py.getitem frame_indices (target_idx st) = Some target /\
    current_frame st' = current_frame st + 1 /\
    ((current_frame st = target /\
      extracted st' = extracted st + 1 /\
      target_idx st' = target_idx st + 1 /\
      log st' = log st ++
                [imwrite (frame_filename output_dir (target_idx st)) frame])
     \/
     (current_frame st <> target /\
      extracted st' = extracted st /\
      target_idx st' = target_idx st /\
      log st' = log st)).
Proof.
  unfold loop_body, read.
  destruct (stream (cap st)) as [|[frame|] rest]; try discriminate.
  destruct (Py.getitem frame_indices (target_idx st)) as [target|];
    try discriminate.
  destruct (Z.eqb_spec (current_frame st) target) as [E|E];
    intros [= <-]; exists frame, rest, target; simpl; intuition auto.
Qed.

Lemma body_Break (st st' : State Frame) :
  body st = Break st' ->
  yielded (stream (cap st)) = [] /\
  extracted st' = extracted st /\
  current_frame st' = current_frame st /\
  target_idx st' = target_idx st /\
  log st' = log st.
Proof.
  unfold loop_body, read.
  destruct (stream (cap st)) as [|[frame|] rest].
  - intros [= <-]; simpl; auto.
  - destruct (Py.getitem frame_indices (target_idx st)) as [target|];
      try discriminate.
    destruct (current_frame st =? target); discriminate.
  - intros [= <-]; simpl; auto.
Qed.

Lemma body_Throw (st st' : State Frame) (e : Exception) :
  body st = Throw e st' ->
  e = IndexError /\
  Py.getitem frame_indices (target_idx st) = None /\
  log st' = log st.
Proof.
  unfold loop_body, read.
  destruct (stream (cap st)) as [|[frame|] rest]; try discriminate.
  destruct (Py.getitem frame_indices (target_idx st)) as [target|].
  - destruct (current_frame st =? target); discriminate.
  - intros [= <- <-]; simpl; auto.
Qed.

(** *** The run of the loop, as a path of [iterates] and a way out *)

Lemma iterates_from_step (st st' st1 : State Frame) :
  cond st = true ->
  body st = Continue st' ->
  iterates output_dir num_frames frame_indices st' st1 ->
  iterates output_dir num_frames frame_indices st st1.
Proof.
  intros Hc Hb H.
  induction H as [|a b _ IH Hca Hba].
  - eapply iterates_again; [apply iterates_enter | exact Hc | exact Hb].
  - eapply iterates_again; [exact IH | exact Hca | exact Hba].
Qed.

Lemma while_loop_run (st : State Frame) :
  exists st1,
    iterates output_dir num_frames frame_indices st st1 /\
    leaves output_dir num_frames frame_indices st1 (loop st).
Proof.
  funelim (while_loop output_dir num_frames frame_indices st).
  - exists st; split; [apply iterates_enter | now apply leaves_cond].
  - match goal with IH : exists _, _ |- _ => destruct IH as (st1 & Hit & Hl) end.
    exists st1; split.
    + eapply iterates_from_step; eassumption.
    + exact Hl.
  - exists st; split; [apply iterates_enter | ].
    eapply leaves_break; eassumption.
  - exists st; split; [apply iterates_enter | ].
    eapply leaves_throw; eassumption.
Qed.

(** *** Invariants of the loop *)

Lemma cond_true (st : State Frame) :
  cond st = true <-> opened (cap st) = true /\ target_idx st < num_frames.
Proof.
  unfold loop_cond, isOpened. rewrite andb_true_iff, Z.ltb_lt. reflexivity.
Qed.

Lemma cond_false (st : State Frame) :
  cond st = false <-> opened (cap st) = false \/ num_frames <= target_idx st.
Proof.
  unfold loop_cond, isOpened. rewrite andb_false_iff, Z.ltb_ge. reflexivity.
Qed.

(** The capture stays as it was opened, and reports the same frame count. *)
Lemma iterates_cap (st0 st : State Frame) :
  iterates output_dir num_frames frame_indices st0 st ->
  opened (cap st) = opened (cap st0) /\
  frame_count (cap st) = frame_count (cap st0).
Proof.
  induction 1 as [|a b _ [Ho Hf] _ Hb]; [auto|].
  apply body_Continue in Hb as (fr & rest & t & _ & Hcap & _).
  rewrite Hcap; simpl; auto.
Qed.

(** [extracted] and [target_idx] advance together, and never past
    [num_frames]. *)
Lemma iterates_count (st0 st : State Frame) :
  iterates output_dir num_frames frame_indices st0 st ->
  extracted st - target_idx st = extracted st0 - target_idx st0 /\
  target_idx st0 <= target_idx st /\
  (target_idx st0 <= num_frames -> target_idx st <= num_frames).
Proof.
  induction 1 as [|a b _ (He & Hk & Hn) Hc Hb]; [lia|].
  apply cond_true in Hc as [_ Hc].
  apply body_Continue in Hb
    as (fr & rest & t & _ & _ & _ & _ & [(_ & E1 & E2 & _)|(_ & E1 & E2 & _)]);
    rewrite E1, E2; lia.
Qed.

(** Every pass that stays in the loop consumes one yielded frame and
    advances [current_frame] by one. *)
Lemma iterates_frames (st0 st : State Frame) :
  iterates output_dir num_frames frame_indices st0 st ->
  current_frame st0 <= current_frame st /\
  Z.of_nat (List.length (yielded (stream (cap st)))) + current_frame st =
  Z.of_nat (List.length (yielded (stream (cap st0)))) + current_frame st0.
Proof.
  induction 1 as [|a b _ [Hle Hy] _ Hb]; [lia|].
  apply body_Continue in Hb as (fr & rest & t & Hs & Hcap & _ & Hc & _).
  rewrite Hs in Hy; simpl yielded in Hy; simpl List.length in Hy.
  rewrite Hcap, Hc; simpl stream. lia.
Qed.

(** Only [imwrite] is added to the log. *)
Lemma iterates_printed (st0 st : State Frame) :
  iterates output_dir num_frames frame_indices st0 st ->
  printed (log st) = printed (log st0).
Proof.
  induction 1 as [|a b _ Hp _ Hb]; [reflexivity|].
  apply body_Continue in Hb
    as (fr & rest & t & _ & _ & _ & _ & [(_ & _ & _ & E)|(_ & _ & _ & E)]);
    rewrite E; [|exact Hp].
  rewrite printed_app, Hp. simpl. apply app_nil_r.
Qed.

(** One image file is written for each frame counted. *)
Lemma iterates_written (st0 st : State Frame) :
  iterates output_dir num_frames frame_indices st0 st ->
  Z.of_nat (List.length (written (log st))) - extracted st =
  Z.of_nat (List.length (written (log st0))) - extracted st0.
Proof.
  induction 1 as [|a b _ IH _ Hb]; [reflexivity|].
  apply body_Continue in Hb
    as (fr & rest & t & _ & _ & _ & _ &
        [(_ & Ee & _ & El)|(_ & Ee & _ & El)]);
    rewrite Ee, El; [|exact IH].
  rewrite written_app, length_app; simpl List.length. lia.
Qed.

(** *** Leaving the loop *)

Local Notation "'target_at' k" := (nth (Z.to_nat k) frame_indices 0)
  (at level 10, k at level 9).

(** The index list is as long as the loop condition assumes. *)
Hypothesis frame_indices_long :
  num_frames <= Z.of_nat (List.length frame_indices).

Lemma iterates_getitem (st0 st : State Frame) :
  0 <= target_idx st0 ->
  iterates output_dir num_frames frame_indices st0 st ->
  cond st = true ->
  0 <= target_idx st < Z.of_nat (List.length frame_indices) /\
  Py.getitem frame_indices (target_idx st) = Some (target_at (target_idx st)).
Proof.
  intros H0 Hit Hc.
  apply iterates_count in Hit as (_ & Hk & _).
  apply cond_true in Hc as [_ Hc].
  split; [lia|]. apply getitem_nth. lia.
Qed.

(** The loop never raises: it is left through its condition or through
    [break], with the local variables as they were at the head of the loop. *)
Lemma while_loop_exit (st0 : State Frame) :
  0 <= target_idx st0 ->
  exists st1 st2,
    iterates output_dir num_frames frame_indices st0 st1 /\
    loop st0 = Exited st2 /\
    extracted st2 = extracted st1 /\
    current_frame st2 = current_frame st1 /\
    target_idx st2 = target_idx st1 /\
    log st2 = log st1 /\
    (cond st1 = false \/
     cond st1 = true /\ yielded (stream (cap st1)) = []).
Proof.
  intros H0.
  destruct (while_loop_run st0) as (st1 & Hit & Hl).
  inversion Hl as [Hc Hx | st2 Hc Hb Hx | e st2 Hc Hb Hx].
  - exists st1, st1. repeat split; auto.
  - apply body_Break in Hb as (Hy & He & Hcur & Hk & Hlog).
    exists st1, st2. repeat split; auto.
  - apply body_Throw in Hb as (_ & Hg & _).
    destruct (iterates_getitem st0 st1 H0 Hit Hc) as [_ Hg'].
    congruence.
Qed.

(** Targets already matched lie behind [current_frame], in increasing
    order. *)
Lemma iterates_passed (st0 st : State Frame) :
  0 <= target_idx st0 ->
  iterates output_dir num_frames frame_indices st0 st ->
  (forall j, target_idx st0 <= j < target_idx st ->
             target_at j < current_frame st) /\
  (forall i j, target_idx st0 <= i -> i < j -> j < target_idx st ->
               target_at i < target_at j).
Proof.
  intros H0.
  induction 1 as [|a b Ha [IH1 IH2] Hc Hb]; [split; intros; lia|].
  destruct (iterates_getitem st0 a H0 Ha Hc) as [Hk Hg].
  apply body_Continue in Hb
    as (fr & rest & t & _ & _ & Hg' & Ecur &
        [(Et & _ & Ek & _)|(_ & _ & Ek & _)]);
    rewrite Ecur, Ek.
  - assert (Hta : target_at (target_idx a) = current_frame a) by congruence.
    split.
    + intros j Hj. destruct (Z.eq_dec j (target_idx a)) as [->|Hne].
      * lia.
      * specialize (IH1 j). lia.
    + intros i j Hi Hij Hj. destruct (Z.eq_dec j (target_idx a)) as [->|Hne].
      * specialize (IH1 i). lia.
      * apply IH2; lia.
  - split.
    + intros j Hj. specialize (IH1 j). lia.
    + exact IH2.
Qed.

(** Once the next target lies behind [current_frame], nothing more is
    matched. *)
Lemma iterates_stuck (st0 st : State Frame) :
  0 <= target_idx st0 ->
  target_at (target_idx st0) < current_frame st0 ->
  iterates output_dir num_frames frame_indices st0 st ->
  target_idx st = target_idx st0 /\
  extracted st = extracted st0 /\
  log st = log st0.
Proof.
  intros H0 Hbehind.
  induction 1 as [|a b Ha (IHk & IHe & IHl) Hc Hb]; [auto|].
  destruct (iterates_getitem st0 a H0 Ha Hc) as [_ Hg].
  apply iterates_frames in Ha as [Hcur _].
  apply body_Continue in Hb
    as (fr & rest & t & _ & _ & Hg' & _ &
        [(Et & _)|(_ & Ee & Ek & El)]).
  - assert (t = target_at (target_idx a)) by congruence.
    rewrite IHk in *. lia.
  - rewrite Ee, Ek, El. auto.
Qed.

(** While the targets still to come are strictly increasing, the next one
    is never behind [current_frame]. *)
Lemma iterates_ahead (st0 st : State Frame) :
  0 <= target_idx st0 ->
  (forall i, target_idx st0 <= i -> i + 1 < num_frames ->
             target_at i < target_at (i + 1)) ->
  (target_idx st0 < num_frames ->
   current_frame st0 <= target_at (target_idx st0)) ->
  iterates output_dir num_frames frame_indices st0 st ->
  target_idx st < num_frames ->
  current_frame st <= target_at (target_idx st).
Proof.
  intros H0 Hinc Hinit.
  induction 1 as [|a b Ha IH Hc Hb]; [exact Hinit|].
  destruct (iterates_getitem st0 a H0 Ha Hc) as [Hk Hg].
  apply iterates_count in Ha as (_ & Hka & _).
  apply cond_true in Hc as [_ Hc]. specialize (IH Hc).
  apply body_Continue in Hb
    as (fr & rest & t & _ & _ & Hg' & Ecur &
        [(Et & _ & Ek & _)|(Et & _ & Ek & _)]);
    rewrite Ecur, Ek; intros Hlt.
  - assert (Hta : target_at (target_idx a) = current_frame a) by congruence.
    specialize (Hinc (target_idx a)). lia.
  - assert (Hta : target_at (target_idx a) = t) by congruence. lia.
Qed.

End Scan.

(** ** The function as a whole *)

Section Extract.

Context {Frame : Type}.
Variables (cv2_VideoCapture : string -> VideoCapture Frame).
Variables (video_path output_dir : string) (num_frames : Z).

Local Notation "'source'" := (cv2_VideoCapture video_path).
Local Notation "'total_frames'" := (frame_count (cv2_VideoCapture video_path)).
Local Notation "'frame_indices'" :=
  (frame_indices_of (frame_count (cv2_VideoCapture video_path)) num_frames).
Local Notation "'init'" :=
  (initial_state (cv2_VideoCapture video_path) video_path output_dir).
Local Notation "'run'" :=
  (extract_frames cv2_VideoCapture video_path output_dir num_frames).

Lemma frame_indices_of_long : num_frames <= Z.of_nat (List.length frame_indices).
Proof. rewrite frame_indices_length. lia. Qed.

Lemma extract_frames_unopened :
  opened source = false ->
  run = Raised (RuntimeError ("Cannot open video: " ++ video_path)%string)
               [makedirs output_dir; VideoCapture_open video_path].
Proof. intros Ho. unfold extract_frames, isOpened. now rewrite Ho. Qed.

Lemma extract_frames_unknown_length :
  opened source = true ->
  total_frames <= 0 ->
  run = Raised (RuntimeError "Could not determine total frame count")
               [makedirs output_dir; VideoCapture_open video_path].
Proof.
  intros Ho HT. unfold extract_frames, isOpened, get_frame_count.
  rewrite Ho; simpl. now destruct (Z.leb_spec total_frames 0); [|lia].
Qed.

Lemma extract_frames_loop :
  opened source = true ->
  0 < total_frames ->
  run = match while_loop output_dir num_frames frame_indices init with
        | Exited st =>
            Returned (extracted st)
                     (log st ++ [release;
                                 print (summary (extracted st) output_dir)])
        | Threw e st => Raised e (log st)
        end.
Proof.
  intros Ho HT. unfold extract_frames, isOpened, get_frame_count.
  rewrite Ho; simpl negb; cbv iota.
  now destruct (Z.leb_spec total_frames 0); [lia|].
Qed.

(** On a source that opens and reports a positive length, the function
    returns, from a state in which the head of the loop was reached. *)
Lemma extract_frames_scans :
  opened source = true ->
  0 < total_frames ->
  exists st,
    iterates output_dir num_frames frame_indices init st /\
    (loop_cond num_frames st = false \/
     loop_cond num_frames st = true /\ yielded (stream (cap st)) = []) /\
    run = Returned (extracted st)
                   (log st ++ [release;
                               print (summary (extracted st) output_dir)]).
Proof.
  intros Ho HT.
  destruct (while_loop_exit output_dir num_frames frame_indices
              frame_indices_of_long init)
    as (st1 & st2 & Hit & Hloop & He & _ & _ & Hl & Hout); [simpl; lia|].
  exists st1. split; [exact Hit|]. split; [exact Hout|].
  rewrite extract_frames_loop, Hloop, He, Hl by assumption. reflexivity.
Qed.

(** What the log of a call that went through the scan looks like. *)
Lemma scan_log (st : State Frame) :
  iterates output_dir num_frames frame_indices init st ->
  let lg := log st ++ [release; print (summary (extracted st) output_dir)] in
  printed lg = [summary (extracted st) output_dir] /\
  Z.of_nat (List.length (written lg)) = extracted st.
Proof.
  intros Hit lg. unfold lg. rewrite printed_app, written_app.
  rewrite (iterates_printed _ _ _ _ _ Hit).
  pose proof (iterates_written _ _ _ _ _ Hit) as Hw. simpl in Hw.
  simpl. rewrite app_nil_r. split; [reflexivity|lia].
Qed.

(** A call that raises did so before the scan. *)
Lemma extract_frames_raised (e : Exception) (lg : list (Effect Frame)) :
  run = Raised e lg ->
  (opened source = false \/ total_frames <= 0) /\
  lg = [makedirs output_dir; VideoCapture_open video_path] /\
  e <> IndexError.
Proof.
  intros Hr.
  destruct (opened source) eqn:Ho.
  - destruct (Z.le_gt_cases total_frames 0) as [HT|HT].
    + rewrite extract_frames_unknown_length in Hr by assumption.
      injection Hr as <- <-. repeat split; auto; discriminate.
    + destruct (extract_frames_scans Ho ltac:(lia)) as (st & _ & _ & Hrun).
      congruence.
  - rewrite extract_frames_unopened in Hr by assumption.
    injection Hr as <- <-. repeat split; auto; discriminate.
Qed.

(** The scan reaches every target when the targets are strictly increasing
    and the source yields a frame at each of them. *)
Lemma extract_frames_complete :
  opened source = true ->
  0 < total_frames ->
  0 < num_frames ->
  (forall i, 0 <= i -> i + 1 < num_frames ->
     nth (Z.to_nat i) frame_indices 0 < nth (Z.to_nat (i + 1)) frame_indices 0) ->
  (forall i, 0 <= i < num_frames ->
     nth (Z.to_nat i) frame_indices 0 <
     Z.of_nat (List.length (yielded (stream source)))) ->
  exists lg,
    run = Returned num_frames lg /\
    printed lg = [summary num_frames output_dir] /\
    Z.of_nat (List.length (written lg)) = num_frames.
Proof.
  intros Ho HT HN Hinc Hyield.
  destruct (extract_frames_scans Ho HT) as (st & Hit & Hout & Hrun).
  rewrite Hrun. eexists.
  enough (E : extracted st = num_frames).
  { rewrite <- E. split; [reflexivity|]. now apply scan_log. }
  pose proof (iterates_count _ _ _ _ _ Hit) as (He & Hk & Hn).
  pose proof (iterates_cap _ _ _ _ _ Hit) as (Hop & _).
  pose proof (iterates_frames _ _ _ _ _ Hit) as (_ & Hfr).
  simpl in He, Hk, Hn, Hop, Hfr.
  destruct Hout as [Hc | [Hc Hy]].
  - apply cond_false in Hc as [Hc|Hc]; [congruence|lia].
  - apply cond_true in Hc as [_ Hc].
    assert (Hahead : current_frame st <=
                     nth (Z.to_nat (target_idx st)) frame_indices 0).
    { apply (iterates_ahead output_dir num_frames frame_indices
               frame_indices_of_long init st); auto.
      - simpl; lia.
      - intros _. change (target_idx init) with 0.
        rewrite frame_indices_nth by lia.
        rewrite Z.mul_0_l, Z.div_0_l by lia. simpl; lia. }
    specialize (Hyield (target_idx st) ltac:(lia)).
    rewrite Hy in Hfr; simpl in Hfr. lia.
Qed.

End Extract.

(** ** The target index list *)


(** ** Invariants of the scan *)

(** C9: on an opened source and for positive [N], [extracted = target_idx <= N]
    holds whenever the head of the loop is reached; the count reported is
    therefore at most [N], and it is reported whenever the source has a
    positive length. *)
Theorem extracted_le_num_frames {Frame : Type}
    (cv2_VideoCapture : string -> VideoCapture Frame)
    (video_path output_dir : string) (num_frames : Z) :
  let source := cv2_VideoCapture video_path in
  let run := extract_frames cv2_VideoCapture video_path output_dir num_frames in
  opened source = true ->
  0 < num_frames ->
  (forall st,
     iterates output_dir num_frames
              (frame_indices_of (frame_count source) num_frames)
              (initial_state source video_path output_dir) st ->
     extracted st = target_idx st /\ 0 <= target_idx st <= num_frames) /\
  (forall n lg, run = Returned n lg -> 0 <= n <= num_frames) /\
  (0 < frame_count source ->
   exists n lg,
     run = Returned n lg /\ 0 <= n <= num_frames /\
     printed lg = [summary n output_dir]).
Proof.
  intros source run Ho HN.
  assert (Hinv : forall st,
     iterates output_dir num_frames
              (frame_indices_of (frame_count source) num_frames)
              (initial_state source video_path output_dir) st ->
     extracted st = target_idx st /\ 0 <= target_idx st <= num_frames).
  { intros st Hit. apply iterates_count in Hit as (He & Hk & Hn).
    simpl in He, Hk, Hn. lia. }
  assert (Hret : 0 < frame_count source ->
     exists n lg,
       run = Returned n lg /\ 0 <= n <= num_frames /\
       printed lg = [summary n output_dir]).
  { intros HT.
    destruct (extract_frames_scans cv2_VideoCapture video_path output_dir
                num_frames Ho HT) as (st & Hit & _ & Hrun).
    exists (extracted st); eexists. split; [exact Hrun|].
    split; [destruct (Hinv st Hit); lia|].
    apply iterates_printed in Hit. simpl in Hit.
    clear - Hit. induction (log st) as [|[] l IH]; simpl in *;
      try discriminate; auto. }
  split; [exact Hinv|]. split; [|exact Hret].
  intros n lg Hr.
  destruct (Z.le_gt_cases (frame_count source) 0) as [HT|HT].
  - unfold run in Hr.
    rewrite extract_frames_unknown_length in Hr by assumption. discriminate.
  - destruct (Hret ltac:(lia)) as (n' & lg' & Hr' & Hn & _).
    assert (n = n') by congruence. lia.
Qed.

(** C10: whenever the body of the loop is entered, [target_idx] is a valid
    index of [frame_indices], whose length is [num_frames]; no call raises
    IndexError. *)
Theorem frame_indices_access_in_bounds {Frame : Type}
    (cv2_VideoCapture : string -> VideoCapture Frame)
    (video_path output_dir : string) (num_frames : Z) :
  let source := cv2_VideoCapture video_path in
  let frame_indices := frame_indices_of (frame_count source) num_frames in
  (forall st,
     iterates output_dir num_frames frame_indices
              (initial_state source video_path output_dir) st ->
     loop_cond num_frames st = true ->
     0 <= target_idx st < num_frames /\
     num_frames = Z.of_nat (List.length frame_indices) /\
     exists target, Py.getitem frame_indices (target_idx st) = Some target) /\
  (forall lg,
     extract_frames cv2_VideoCapture video_path output_dir num_frames
     <> Raised IndexError lg).
Proof.
  intros source frame_indices. split.
  - intros st Hit Hc.
    assert (H0 : 0 <= target_idx (initial_state source video_path output_dir))
      by (simpl; lia).
    destruct (iterates_getitem output_dir num_frames frame_indices
                (frame_indices_of_long cv2_VideoCapture video_path num_frames)
                _ st H0 Hit Hc) as [Hk Hg].
    apply cond_true in Hc as [_ Hc].
    unfold frame_indices in *. rewrite frame_indices_length in *.
    repeat split; try lia. eauto.
  - intros lg Hr. apply extract_frames_raised in Hr as (_ & _ & Hne).
    now apply Hne.
Qed.

(** ** How many frames are extracted *)

Lemma frame_indices_strict_of_NoDup (T N i : Z) :
  0 < T -> 0 < N ->
  NoDup (frame_indices_of T N) ->
  0 <= i -> i + 1 < N ->
  nth (Z.to_nat i) (frame_indices_of T N) 0 <
  nth (Z.to_nat (i + 1)) (frame_indices_of T N) 0.
Proof.
  intros HT HN Hnd Hi Hi1.
  pose proof (proj1 (NoDup_nth (frame_indices_of T N) 0) Hnd
                (Z.to_nat i) (Z.to_nat (i + 1))) as Hinj.
  rewrite frame_indices_length in Hinj.
  specialize (Hinj ltac:(lia) ltac:(lia)).
  rewrite !frame_indices_nth in * by lia.
  pose proof (floor_div_mono T N i (i + 1) HT HN ltac:(lia)).
  destruct (Z.eq_dec (i * T / N) ((i + 1) * T / N)) as [E|E]; [|lia].
  specialize (Hinj E). lia.
Qed.

Lemma frame_indices_In_nth (T N i : Z) :
  0 <= i < N ->
  In (nth (Z.to_nat i) (frame_indices_of T N) 0) (frame_indices_of T N).
Proof.
  intros Hi. apply nth_In. rewrite frame_indices_length. lia.
Qed.

(** C2: on an opened source that reports [T > 0] frames and yields exactly
    [T], a request for [N] frames with [1 <= N <= T] extracts exactly [N]:
    the count printed is [N] and [N] image files are written. *)
Theorem extracts_all_when_enough_frames {Frame : Type}
    (cv2_VideoCapture : string -> VideoCapture Frame)
    (video_path output_dir : string) (num_frames : Z) :
  let source := cv2_VideoCapture video_path in
  opened source = true ->
  0 < frame_count source ->
  Z.of_nat (List.length (yielded (stream source))) = frame_count source ->
  1 <= num_frames <= frame_count source ->
  exists lg,
    extract_frames cv2_VideoCapture video_path output_dir num_frames
    = Returned num_frames lg /\
    printed lg = [summary num_frames output_dir] /\
    Z.of_nat (List.length (written lg)) = num_frames.
Proof.
  intros source Ho HT Hy HN.
  apply extract_frames_complete; auto; try lia.
  - intros i Hi Hi1. fold source.
    rewrite !frame_indices_nth by lia.
    apply floor_div_strict; lia.
  - intros i Hi. fold source. rewrite Hy, frame_indices_nth by lia.
    apply Z.div_lt_upper_bound; nia.
Qed.

(** C4, amended: on an opened source that reports [T > 0] frames, for a
    positive [N] whose target index list has no duplicate entry, the count is
    [N] whenever the source yields a frame at every target index; a count
    below [N] means that the source yielded no frame at some target index. *)
Theorem short_count_only_if_stream_short {Frame : Type}
    (cv2_VideoCapture : string -> VideoCapture Frame)
    (video_path output_dir : string) (num_frames : Z) :
  let source := cv2_VideoCapture video_path in
  let frame_indices := frame_indices_of (frame_count source) num_frames in
  let yielded_count := Z.of_nat (List.length (yielded (stream source))) in
  let run := extract_frames cv2_VideoCapture video_path output_dir num_frames in
  opened source = true ->
  0 < frame_count source ->
  0 < num_frames ->
  NoDup frame_indices ->
  ((forall t, In t frame_indices -> t < yielded_count) ->
   exists lg, run = Returned num_frames lg) /\
  (forall n lg,
     run = Returned n lg -> n < num_frames ->
     exists t, In t frame_indices /\ yielded_count <= t).
Proof.
  intros source frame_indices yielded_count run Ho HT HN Hnd.
  assert (Hall : (forall t, In t frame_indices -> t < yielded_count) ->
                 exists lg, run = Returned num_frames lg).
  { intros Hy.
    destruct (extract_frames_complete cv2_VideoCapture video_path output_dir
                num_frames Ho HT HN) as (lg & Hr & _).
    - intros i Hi Hi1. now apply frame_indices_strict_of_NoDup.
    - intros i Hi. apply Hy. now apply frame_indices_In_nth.
    - eauto. }
  split; [exact Hall|].
  intros n lg Hr Hn.
  destruct (all_below_or_not frame_indices yielded_count) as [Hy|Hex];
    [|exact Hex].
  destruct (Hall Hy) as (lg' & Hr').
  assert (n = num_frames) by congruence. lia.
Qed.

(** C4 as stated fails: with [T = 1] and [N = 2] the targets are [0; 0], the
    source yields its frame 0, and one frame is extracted. *)
Lemma short_count_with_all_targets_yielded :
  ~ (forall (Frame : Type) (cv2_VideoCapture : string -> VideoCapture Frame)
            (video_path output_dir : string) (num_frames : Z),
       let source := cv2_VideoCapture video_path in
       opened source = true ->
       0 < frame_count source ->
       0 < num_frames ->
       (forall t, In t (frame_indices_of (frame_count source) num_frames) ->
                  t < Z.of_nat (List.length (yielded (stream source)))) ->
       exists lg,
         extract_frames cv2_VideoCapture video_path output_dir num_frames
         = Returned num_frames lg).
Proof.
  intros H.
  destruct (H unit (fun _ => mkCapture true 1 [Some tt]) "video.mp4" "frames" 2)
    as (lg & Hr); try reflexivity; try lia.
  - intros t Ht. vm_compute in Ht. change (t < 1).
    destruct Ht as [<-|[<-|[]]]; lia.
  - vm_compute in Hr. discriminate.
Qed.

(** ** Duplicate targets *)

(** C5: when the target index list has the same entry at two positions
    [i < j] (as it has at positions 0 and 1 whenever [N > T]), the scan never
    gets past target [j], whatever the source yields: the count stays below
    [N], and the only line printed is the usual summary. *)
Theorem duplicate_target_never_matched {Frame : Type}
    (cv2_VideoCapture : string -> VideoCapture Frame)
    (video_path output_dir : string) (num_frames : Z) :
  let source := cv2_VideoCapture video_path in
  let frame_indices := frame_indices_of (frame_count source) num_frames in
  let run := extract_frames cv2_VideoCapture video_path output_dir num_frames in
  opened source = true ->
  0 < frame_count source ->
  (frame_count source < num_frames ->
   Py.getitem frame_indices 0 = Some 0 /\
   Py.getitem frame_indices 1 = Some 0) /\
  (forall i j t,
     0 <= i -> i < j -> j < num_frames ->
     Py.getitem frame_indices i = Some t ->
     Py.getitem frame_indices j = Some t ->
     (forall st,
        iterates output_dir num_frames frame_indices
                 (initial_state source video_path output_dir) st ->
        target_idx st <= j) /\
     exists n lg,
       run = Returned n lg /\ n <= j /\ n < num_frames /\
       printed lg = [summary n output_dir]).
Proof.
  intros source frame_indices run Ho HT. split.
  - intros HN. unfold frame_indices.
    rewrite !frame_indices_getitem by lia.
    rewrite Z.mul_0_l, Z.div_0_l, Z.mul_1_l, Z.div_small by lia. auto.
  - intros i j t Hi Hij Hj Gi Gj.
    apply getitem_Some with (d := 0) in Gi as [_ Gi]; [|lia].
    apply getitem_Some with (d := 0) in Gj as [_ Gj]; [|lia].
    assert (Hstop : forall st,
              iterates output_dir num_frames frame_indices
                       (initial_state source video_path output_dir) st ->
              target_idx st <= j).
    { intros st Hit.
      destruct (Z.le_gt_cases (target_idx st) j) as [|Hgt]; [assumption|].
      apply iterates_passed in Hit as [_ Hinc];
        [|apply frame_indices_of_long|simpl; lia].
      specialize (Hinc i j). simpl in Hinc. lia. }
    split; [exact Hstop|].
    destruct (extract_frames_scans cv2_VideoCapture video_path output_dir
                num_frames Ho HT) as (st & Hit & _ & Hrun).
    exists (extracted st); eexists. split; [exact Hrun|].
    pose proof (Hstop st Hit).
    pose proof (iterates_count _ _ _ _ _ Hit) as (He & _). simpl in He.
    repeat split; try lia.
    exact (proj1 (scan_log cv2_VideoCapture video_path output_dir num_frames
                           st Hit)).
Qed.

(** ** Sources that yield a first frame *)

Lemma yielded_cons {Frame : Type} (s : list (option Frame)) (frame : Frame)
    (others : list Frame) :
  yielded s = frame :: others ->
  exists rest, s = Some frame :: rest /\ yielded rest = others.
Proof.
  destruct s as [|[f|] rest]; simpl; try discriminate.
  intros [= -> <-]. eauto.
Qed.

(** ** A worked scenario *)

(** C6: with [T = 10] and [N = 5] on a source that yields its ten frames, the
    targets are [0; 2; 4; 6; 8] and the files [frame_0000.png] to
    [frame_0004.png] hold the source frames 0, 2, 4, 6 and 8, in this
    order. *)
Theorem ten_frames_five_requested {Frame : Type}
    (cv2_VideoCapture : string -> VideoCapture Frame)
    (video_path output_dir : string)
    (f0 f1 f2 f3 f4 f5 f6 f7 f8 f9 : Frame) :
  let source := cv2_VideoCapture video_path in
  opened source = true ->
  frame_count source = 10 ->
  yielded (stream source) = [f0; f1; f2; f3; f4; f5; f6; f7; f8; f9] ->
  frame_indices_of (frame_count source) 5 = [0; 2; 4; 6; 8] /\
  extract_frames cv2_VideoCapture video_path output_dir 5
  = Returned 5
      [makedirs output_dir; VideoCapture_open video_path;
       imwrite (Py.os_path_join output_dir "frame_0000.png") f0;
       imwrite (Py.os_path_join output_dir "frame_0001.png") f2;
       imwrite (Py.os_path_join output_dir "frame_0002.png") f4;
       imwrite (Py.os_path_join output_dir "frame_0003.png") f6;
       imwrite (Py.os_path_join output_dir "frame_0004.png") f8;
       release; print (summary 5 output_dir)].
Proof.
  intros source Ho HT Hy.
  split; [rewrite HT; reflexivity|].
  rewrite extract_frames_loop by (fold source; auto; lia).
  fold source. rewrite HT.
  change (frame_indices_of 10 5) with [0; 2; 4; 6; 8].
  unfold initial_state.
  destruct source as [o T s]. simpl in Ho, HT, Hy. subst o T.
  repeat (apply yielded_cons in Hy as (? & -> & Hy)).
  do 10 (rewrite while_loop_step;
         unfold loop_cond, loop_body, read, isOpened; simpl).
  reflexivity.
Qed.

(** ** A failed read *)

Lemma yielded_failed_read {Frame : Type} (pre : list Frame)
    (rest : list (option Frame)) :
  yielded (map Some pre ++ None :: rest) = pre.
Proof. induction pre as [|f pre IH]; simpl; congruence. Qed.

(** The loop sees of a source only the frames it yields: what follows the
    first failed read plays no part. *)
Lemma while_loop_yielded {Frame : Type} (output_dir : string) (num_frames : Z)
    (frame_indices : list Z) (o : bool) (T : Z) (s : list (option Frame)) :
  forall (e c k : Z) (lg : list (Effect Frame)),
    match while_loop output_dir num_frames frame_indices
                     (mkState (mkCapture o T s) e c k lg) with
    | Exited st => (None, extracted st, log st)
    | Threw x st => (Some x, extracted st, log st)
    end =
    match while_loop output_dir num_frames frame_indices
                     (mkState (mkCapture o T (map Some (yielded s))) e c k lg)
    with
    | Exited st => (None, extracted st, log st)
    | Threw x st => (Some x, extracted st, log st)
    end.
Proof.
  induction s as [|[frame|] rest IH]; intros e c k lg.
  - reflexivity.
  - rewrite (while_loop_step _ _ _ (mkState (mkCapture o T (Some frame :: rest)) e c k lg)).
    rewrite (while_loop_step _ _ _ (mkState (mkCapture o T (map Some (yielded (Some frame :: rest)))) e c k lg)).
    unfold loop_cond, loop_body, read, isOpened; simpl.
    destruct (o && (k <? num_frames)); [|reflexivity].
    destruct (Py.getitem frame_indices k) as [target|]; [|reflexivity].
    destruct (c =? target); apply IH.
  - rewrite (while_loop_step _ _ _ (mkState (mkCapture o T (None :: rest)) e c k lg)).
    rewrite (while_loop_step _ _ _ (mkState (mkCapture o T (map Some (yielded (None :: rest)))) e c k lg)).
    unfold loop_cond, loop_body, read, isOpened; simpl.
    destruct (o && (k <? num_frames)); reflexivity.
Qed.

(** C8: on an opened source of positive reported length whose read fails
    after the frames [pre], the call does what it does on the source that
    ends after [pre]: it returns, having released the decoder and printed the
    summary last, and its image files are those written up to the failure. *)
Theorem failed_read_is_end_of_stream {Frame : Type}
    (cv2_VideoCapture : string -> VideoCapture Frame)
    (video_path output_dir : string) (num_frames : Z)
    (pre : list Frame) (rest : list (option Frame)) :
  let source := cv2_VideoCapture video_path in
  let run := extract_frames cv2_VideoCapture video_path output_dir num_frames in
  let ended := mkCapture true (frame_count source) (map Some pre) in
  opened source = true ->
  0 < frame_count source ->
  stream source = map Some pre ++ None :: rest ->
  run = extract_frames (fun _ => ended) video_path output_dir num_frames /\
  exists n lg,
    run = Returned n (lg ++ [release; print (summary n output_dir)]) /\
    printed lg = [] /\
    Z.of_nat (List.length (written lg)) = n.
Proof.
  intros source run ended Ho HT Hs. split.
  - unfold run, ended.
    rewrite !extract_frames_loop by (simpl; auto).
    unfold initial_state. simpl frame_count. fold source.
    destruct source as [o T s]. simpl in Ho, Hs; simpl frame_count.
    subst o s.
    generalize (while_loop_yielded output_dir num_frames
                  (frame_indices_of T num_frames) true T
                  (map Some pre ++ None :: rest)
                  0 0 0 [makedirs output_dir; VideoCapture_open video_path]).
    rewrite yielded_failed_read.
    do 2 match goal with
         | |- context [while_loop ?d ?n ?l ?st] =>
             destruct (while_loop d n l st)
         end.
    all: intros [= ? ?]; congruence.
  - destruct (extract_frames_scans cv2_VideoCapture video_path output_dir
                num_frames Ho HT) as (st & Hit & _ & Hrun).
    exists (extracted st), (log st). split; [exact Hrun|].
    pose proof (iterates_printed _ _ _ _ _ Hit) as Hp.
    pose proof (iterates_written _ _ _ _ _ Hit) as Hw.
    simpl in Hp, Hw. split; [exact Hp|lia].
Qed.

(** ** The theorems at concrete sources *)

Lemma extracts_all_when_enough_frames_witness :
  exists lg,
    extract_frames
      (fun _ => mkCapture true 4 [Some 10%nat; Some 11%nat; Some 12%nat; Some 13%nat])
      "video.mp4" "frames" 2
    = Returned 2 lg /\
    printed lg = [summary 2 "frames"] /\
    Z.of_nat (List.length (written lg)) = 2.
Proof.
  apply (extracts_all_when_enough_frames
           (fun _ => mkCapture true 4
                       [Some 10%nat; Some 11%nat; Some 12%nat; Some 13%nat])
           "video.mp4" "frames" 2);
    simpl; try reflexivity; lia.
Defined.

Lemma short_count_only_if_stream_short_witness :
  exists lg,
    extract_frames
      (fun _ => mkCapture true 4 [Some 10%nat; Some 11%nat; Some 12%nat])
      "video.mp4" "frames" 2
    = Returned 2 lg.
Proof.
  apply (short_count_only_if_stream_short
           (fun _ => mkCapture true 4 [Some 10%nat; Some 11%nat; Some 12%nat])
           "video.mp4" "frames" 2).
  - reflexivity.
  - simpl; lia.
  - lia.
  - change (NoDup [0; 2]).
    repeat constructor; simpl; intuition discriminate.
  - change (forall t, In t [0; 2] -> t < 3).
    intros t [<-|[<-|[]]]; lia.
Defined.

Lemma duplicate_target_never_matched_witness :
  exists n lg,
    extract_frames
      (fun _ => mkCapture true 3 [Some 10%nat; Some 11%nat; Some 12%nat])
      "video.mp4" "frames" 200
    = Returned n lg /\
    n <= 1 /\ n < 200 /\ printed lg = [summary n "frames"].
Proof.
  refine (proj2 (proj2 (duplicate_target_never_matched
                          (fun _ => mkCapture true 3
                                      [Some 10%nat; Some 11%nat; Some 12%nat])
                          "video.mp4" "frames" 200 _ _)
                       0 1 0 _ _ _ _ _)).
  - reflexivity.
  - simpl; lia.
  - lia.
  - lia.
  - lia.
  - reflexivity.
  - reflexivity.
Defined.

Lemma ten_frames_five_requested_witness :
  extract_frames
    (fun _ => mkCapture true 10 (map Some (seq 100 10)))
    "video.mp4" "frames" 5
  = Returned 5
      [makedirs "frames"; VideoCapture_open "video.mp4";
       imwrite "frames/frame_0000.png" 100%nat;
       imwrite "frames/frame_0001.png" 102%nat;
       imwrite "frames/frame_0002.png" 104%nat;
       imwrite "frames/frame_0003.png" 106%nat;
       imwrite "frames/frame_0004.png" 108%nat;
       release; print "Extracted 5 frames to 'frames'"].
Proof.
  apply (ten_frames_five_requested
           (fun _ => mkCapture true 10 (map Some (seq 100 10)))
           "video.mp4" "frames"
           100 101 102 103 104 105 106 107 108 109)%nat;
    reflexivity.
Defined.

Lemma failed_read_is_end_of_stream_witness :
  extract_frames
    (fun _ => mkCapture true 4 [Some 10%nat; Some 11%nat; None; Some 13%nat])
    "video.mp4" "frames" 2
  = extract_frames
      (fun _ => mkCapture true 4 [Some 10%nat; Some 11%nat])
      "video.mp4" "frames" 2.
Proof.
  apply (failed_read_is_end_of_stream
           (fun _ => mkCapture true 4
                       [Some 10%nat; Some 11%nat; None; Some 13%nat])
           "video.mp4" "frames" 2 [10%nat; 11%nat] [Some 13%nat]).
  - reflexivity.
  - simpl; lia.
  - reflexivity.
Defined.

Lemma extracted_le_num_frames_witness :
  exists n lg,
    extract_frames
      (fun _ => mkCapture true 3 [Some 10%nat; Some 11%nat; Some 12%nat])
      "video.mp4" "frames" 2
    = Returned n lg /\
    0 <= n <= 2 /\ printed lg = [summary n "frames"].
Proof.
  refine (proj2 (proj2 (extracted_le_num_frames
                          (fun _ => mkCapture true 3
                                      [Some 10%nat; Some 11%nat; Some 12%nat])
                          "video.mp4" "frames" 2 _ _)) _).
  - reflexivity.
  - lia.
  - simpl; lia.
Defined.

(** * Further properties of the sampler *)

(** ** Spacing of the targets *)

(** Consecutive exact floors differ by [T / N] or [T / N + 1]. *)
Lemma frame_indices_of_spacing (T N i : Z) :
  0 < T -> 0 < N -> 0 <= i -> i + 1 < N ->
  exists ti tj,
    Py.getitem (frame_indices_of T N) i = Some ti /\
    Py.getitem (frame_indices_of T N) (i + 1) = Some tj /\
    T / N <= tj - ti <= T / N + 1.
Proof.
  intros HT HN Hi Hi1.
  exists (i * T / N), ((i + 1) * T / N).
  rewrite !frame_indices_getitem by lia.
  split; [reflexivity|]. split; [reflexivity|].
  pose proof (Z.div_mod T N ltac:(lia)) as ET.
  pose proof (Z.mod_pos_bound T N HN) as BT.
  pose proof (Z.div_mod (i * T) N ltac:(lia)) as Ei.
  pose proof (Z.mod_pos_bound (i * T) N HN) as Bi.
  set (q := T / N) in *. set (a := i * T / N) in *.
  assert (Hlo : a + q <= (i + 1) * T / N)
    by (apply Z.div_le_lower_bound; nia).
  assert (Hhi : (i + 1) * T / N < a + q + 2)
    by (apply Z.div_lt_upper_bound; nia).
  lia.
Qed.

(** X2: the target list is free of duplicates exactly when no more frames are
    requested than the source reports. *)
Theorem frame_indices_NoDup_iff (T N : Z) :
  0 < T -> 0 < N ->
  (NoDup (frame_indices_of T N) <-> N <= T).
Proof.
  intros HT HN. split.
  - intros Hnd.
    destruct (Z.le_gt_cases N T) as [|Hgt]; [assumption|exfalso].
    pose proof (proj1 (NoDup_nth (frame_indices_of T N) 0) Hnd
                  (Z.to_nat 0) (Z.to_nat 1)) as Hinj.
    rewrite frame_indices_length in Hinj.
    specialize (Hinj ltac:(lia) ltac:(lia)).
    rewrite !frame_indices_nth in Hinj by lia.
    rewrite Z.mul_0_l, Z.div_0_l, Z.mul_1_l, Z.div_small in Hinj by lia.
    specialize (Hinj eq_refl). discriminate.
  - intros Hle. apply (NoDup_nth _ 0).
    intros i j Hi Hj E. rewrite frame_indices_length in Hi, Hj.
    rewrite <- (Nat2Z.id i), <- (Nat2Z.id j) in E.
    rewrite !frame_indices_nth in E by lia.
    destruct (Nat.lt_trichotomy i j) as [Hlt|[->|Hlt]]; [|reflexivity|].
    + pose proof (floor_div_strict T N (Z.of_nat i) (Z.of_nat j)). lia.
    + pose proof (floor_div_strict T N (Z.of_nat j) (Z.of_nat i)). lia.
Qed.

Lemma frame_indices_NoDup_iff_witness :
  NoDup (frame_indices_of 10 4) <-> 4 <= 10.
Proof. apply (frame_indices_NoDup_iff 10 4); lia. Defined.

(** ** What the scan reads and writes *)

Lemma skipn_head {A : Type} (l : list A) (n : nat) (x : A) (r : list A) :
  skipn n l = x :: r -> nth_error l n = Some x /\ skipn (S n) l = r.
Proof.
  revert l. induction n as [|n IH]; intros [|y l]; simpl; try discriminate.
  - intros [= -> ->]. auto.
  - intros H. apply (IH l H).
Qed.

Lemma range_snoc (k : Z) : 0 <= k -> Py.range (k + 1) = Py.range k ++ [k].
Proof.
  intros Hk. unfold Py.range.
  replace (Z.to_nat (k + 1)) with (S (Z.to_nat k)) by lia.
  rewrite seq_S, map_app. simpl. now rewrite Z2Nat.id by lia.
Qed.

Lemma range_In (n k : Z) : In k (Py.range n) <-> 0 <= k < n.
Proof.
  unfold Py.range. rewrite in_map_iff. split.
  - intros (i & <- & Hi). apply in_seq in Hi. lia.
  - intros Hk. exists (Z.to_nat k). rewrite in_seq. split; lia.
Qed.

Section ScanFiles.

Context {Frame : Type}.
Variables (output_dir : string) (num_frames : Z) (frame_indices : list Z).
Hypothesis frame_indices_long :
  num_frames <= Z.of_nat (List.length frame_indices).

Variable st0 : State Frame.
Hypothesis start_frame : current_frame st0 = 0.
Hypothesis start_target : target_idx st0 = 0.

(** [current_frame] counts the reads made so far: the capture holds what is
    left of the source after that many reads, all of which succeeded. *)
Lemma iterates_consumed (st : State Frame) :
  iterates output_dir num_frames frame_indices st0 st ->
  0 <= current_frame st /\
  skipn (Z.to_nat (current_frame st)) (stream (cap st0)) = stream (cap st) /\
  skipn (Z.to_nat (current_frame st)) (yielded (stream (cap st0)))
  = yielded (stream (cap st)).
Proof.
  induction 1 as [|a b _ (H0 & Hs & Hy) _ Hb].
  - rewrite start_frame. simpl. auto with zarith.
  - apply body_Continue in Hb as (fr & rest & t & Es & Hcap & _ & Hc & _).
    rewrite Hc, Hcap. simpl stream.
    replace (Z.to_nat (current_frame a + 1))
      with (S (Z.to_nat (current_frame a))) by lia.
    rewrite Es in Hs, Hy. simpl yielded in Hy.
    apply skipn_head in Hs as [_ Hs]. apply skipn_head in Hy as [_ Hy].
    repeat split; [lia|assumption|assumption].
Qed.

(** The file written for target [k] is named after [k] and holds the source
    frame whose number is that target. *)
Lemma iterates_files (st : State Frame) :
  written (log st0) = [] ->
  iterates output_dir num_frames frame_indices st0 st ->
  Forall2 (fun (w : string * Frame) (k : Z) =>
             fst w = frame_filename output_dir k /\
             nth_error (yielded (stream (cap st0)))
                       (Z.to_nat (nth (Z.to_nat k) frame_indices 0))
             = Some (snd w))
          (written (log st)) (Py.range (target_idx st)).
Proof.
  intros Hw0.
  induction 1 as [|a b Ha IH Hc Hb].
  - rewrite Hw0, start_target. constructor.
  - assert (H0 : 0 <= target_idx st0) by lia.
    destruct (iterates_getitem output_dir num_frames frame_indices
                frame_indices_long st0 a H0 Ha Hc) as [Hk Hg].
    destruct (iterates_consumed a Ha) as (Hcur & _ & Hy).
    apply body_Continue in Hb
      as (fr & rest & t & Es & _ & Hg' & _ &
          [(Et & _ & Ek & El)|(_ & _ & Ek & El)]);
      rewrite Ek, El; [|exact IH].
    rewrite written_app, range_snoc by lia.
    apply Forall2_app; [exact IH|].
    constructor; [|constructor]. simpl. split; [reflexivity|].
    rewrite Es in Hy. simpl yielded in Hy.
    apply skipn_head in Hy as [Hy _].
    assert (Ht : nth (Z.to_nat (target_idx a)) frame_indices 0 = t)
      by congruence.
    rewrite Ht, <- Et. exact Hy.
Qed.

(** Nothing but [imwrite] is logged during the scan. *)
Lemma iterates_log (st : State Frame) :
  iterates output_dir num_frames frame_indices st0 st ->
  written (log st0) = [] ->
  log st = log st0 ++ map (fun w => imwrite (fst w) (snd w)) (written (log st)).
Proof.
  induction 1 as [|a b _ IH _ Hb]; intros Hw0.
  - rewrite Hw0. simpl. now rewrite app_nil_r.
  - specialize (IH Hw0).
    apply body_Continue in Hb
      as (fr & rest & t & _ & _ & _ & _ &
          [(_ & _ & _ & El)|(_ & _ & _ & El)]);
      rewrite El; [|exact IH].
    rewrite written_app, map_app, app_assoc, <- IH. reflexivity.
Qed.

End ScanFiles.

Lemma Forall2_impl_in {A B : Type} (P Q : A -> B -> Prop)
    (l1 : list A) (l2 : list B) :
  (forall a b, In b l2 -> P a b -> Q a b) ->
  Forall2 P l1 l2 -> Forall2 Q l1 l2.
Proof.
  intros HPQ H. induction H as [|a b l1 l2 Hab _ IH]; constructor.
  - apply HPQ; [now left|exact Hab].
  - apply IH. intros a' b' Hin. apply HPQ. now right.
Qed.

Section ExtractFiles.

Context {Frame : Type}.
Variables (cv2_VideoCapture : string -> VideoCapture Frame).
Variables (video_path output_dir : string) (num_frames : Z).

Local Notation "'source'" := (cv2_VideoCapture video_path).
Local Notation "'total_frames'" := (frame_count (cv2_VideoCapture video_path)).
Local Notation "'frame_indices'" :=
  (frame_indices_of (frame_count (cv2_VideoCapture video_path)) num_frames).
Local Notation "'init'" :=
  (initial_state (cv2_VideoCapture video_path) video_path output_dir).
Local Notation "'run'" :=
  (extract_frames cv2_VideoCapture video_path output_dir num_frames).

(** [target_idx] moves only below [num_frames]. *)
Lemma iterates_target_range (st : State Frame) :
  iterates output_dir num_frames frame_indices init st ->
  0 <= target_idx st /\ (target_idx st = 0 \/ target_idx st <= num_frames).
Proof.
  induction 1 as [|a b _ [IH0 IH] Hc Hb]; [simpl; lia|].
  apply cond_true in Hc as [_ Hc].
  apply body_Continue in Hb
    as (fr & rest & t & _ & _ & _ & _ & [(_ & _ & Ek & _)|(_ & _ & Ek & _)]);
    rewrite Ek; lia.
Qed.

Lemma scan_files (st : State Frame) :
  iterates output_dir num_frames frame_indices init st ->
  Forall2 (fun (w : string * Frame) (k : Z) =>
             fst w = frame_filename output_dir k /\
             nth_error (yielded (stream source))
                       (Z.to_nat (k * total_frames / num_frames))
             = Some (snd w))
          (written (log st)) (Py.range (target_idx st)).
Proof.
  intros Hit.
  pose proof (iterates_target_range st Hit) as [Hk0 Hk].
  pose proof (iterates_files output_dir num_frames frame_indices
                (frame_indices_of_long cv2_VideoCapture video_path num_frames)
                init eq_refl eq_refl st eq_refl Hit) as Hf.
  revert Hf. apply Forall2_impl_in. simpl cap.
  intros w k Hin [Hn Hfr]. apply range_In in Hin.
  split; [exact Hn|].
  rewrite frame_indices_nth in Hfr by lia. exact Hfr.
Qed.

End ExtractFiles.



(** X4: a call that goes through the scan performs its effects in a fixed
    order: the directory is created, the source is opened, the images are
    written, the decoder is released once, and the summary is printed last;
    one image is written per frame counted. *)
Theorem effects_in_order {Frame : Type}
    (cv2_VideoCapture : string -> VideoCapture Frame)
    (video_path output_dir : string) (num_frames : Z) :
  let source := cv2_VideoCapture video_path in
  opened source = true ->
  0 < frame_count source ->
  exists n lg,
    extract_frames cv2_VideoCapture video_path output_dir num_frames
    = Returned n lg /\
    lg = [makedirs output_dir; VideoCapture_open video_path]
         ++ map (fun w => imwrite (fst w) (snd w)) (written lg)
         ++ [release; print (summary n output_dir)] /\
    Z.of_nat (List.length (written lg)) = n.
Proof.
  intros source Ho HT.
  destruct (extract_frames_scans cv2_VideoCapture video_path output_dir
              num_frames Ho HT) as (st & Hit & _ & Hrun).
  exists (extracted st); eexists. split; [exact Hrun|].
  rewrite written_app. simpl written at 2 4. rewrite app_nil_r.
  split.
  - rewrite (iterates_log output_dir num_frames _ _ st Hit eq_refl) at 1.
    simpl log. now rewrite <- app_assoc.
  - pose proof (iterates_written _ _ _ _ _ Hit) as Hw. simpl in Hw. lia.
Qed.

Lemma effects_in_order_witness :
  exists n lg,
    extract_frames
      (fun _ => mkCapture true 7 (map Some (seq 100 7)))
      "video.mp4" "frames" 3
    = Returned n lg /\
    lg = [makedirs "frames"; VideoCapture_open "video.mp4"]
         ++ map (fun w => imwrite (fst w) (snd w)) (written lg)
         ++ [release; print (summary n "frames")] /\
    Z.of_nat (List.length (written lg)) = n.
Proof.
  apply (effects_in_order
           (fun _ => mkCapture true 7 (map Some (seq 100 7)))
           "video.mp4" "frames" 3).
  - reflexivity.
  - simpl; lia.
Defined.

(** ** Edge cases of the request and of the source *)

(** X5: a request for zero or a negative number of frames is not an error:
    nothing is divided by [num_frames], nothing is read or written, and the
    summary reports 0 frames. *)
Theorem no_frames_requested {Frame : Type}
    (cv2_VideoCapture : string -> VideoCapture Frame)
    (video_path output_dir : string) (num_frames : Z) :
  let source := cv2_VideoCapture video_path in
  opened source = true ->
  0 < frame_count source ->
  num_frames <= 0 ->
  frame_indices_of (frame_count source) num_frames = [] /\
  while_loop output_dir num_frames []
             (initial_state source video_path output_dir)
  = Exited (initial_state source video_path output_dir) /\
  extract_frames cv2_VideoCapture video_path output_dir num_frames
  = Returned 0 [makedirs output_dir; VideoCapture_open video_path;
                release; print (summary 0 output_dir)].
Proof.
  intros source Ho HT HN.
  assert (Hidx : frame_indices_of (frame_count source) num_frames = []).
  { unfold frame_indices_of, Py.range.
    replace (Z.to_nat num_frames) with 0%nat by lia. reflexivity. }
  assert (Hloop : while_loop output_dir num_frames []
                    (initial_state source video_path output_dir)
                  = Exited (initial_state source video_path output_dir)).
  { rewrite while_loop_step.
    replace (loop_cond num_frames (initial_state source video_path output_dir))
      with false; [reflexivity|].
    symmetry. apply cond_false. right. simpl. exact HN. }
  split; [exact Hidx|]. split; [exact Hloop|].
  rewrite extract_frames_loop by assumption. fold source.
  rewrite Hidx, Hloop. reflexivity.
Qed.

Lemma no_frames_requested_witness :
  extract_frames (fun _ => mkCapture true 3 [Some 10%nat; Some 11%nat; Some 12%nat])
                 "video.mp4" "frames" 0
  = Returned 0 [makedirs "frames"; VideoCapture_open "video.mp4";
                release; print (summary 0 "frames")].
Proof.
  apply (no_frames_requested
           (fun _ => mkCapture true 3 [Some 10%nat; Some 11%nat; Some 12%nat])
           "video.mp4" "frames" 0).
  - reflexivity.
  - simpl; lia.
  - lia.
Defined.

(** X6: when the very first read fails (the source yields no frame although
    it reports a positive length), the call still returns normally: nothing
    is written and the summary reports 0 frames. *)
Theorem source_yields_nothing {Frame : Type}
    (cv2_VideoCapture : string -> VideoCapture Frame)
    (video_path output_dir : string) (num_frames : Z) :
  let source := cv2_VideoCapture video_path in
  opened source = true ->
  0 < frame_count source ->
  yielded (stream source) = [] ->
  extract_frames cv2_VideoCapture video_path output_dir num_frames
  = Returned 0 [makedirs output_dir; VideoCapture_open video_path;
                release; print (summary 0 output_dir)].
Proof.
  intros source Ho HT Hy.
  rewrite extract_frames_loop by assumption. fold source.
  rewrite while_loop_step.
  destruct (loop_cond num_frames (initial_state source video_path output_dir));
    [|reflexivity].
  unfold loop_body, read. simpl cap.
  destruct (stream source) as [|[frame|] rest]; try discriminate; reflexivity.
Qed.

Lemma source_yields_nothing_witness :
  extract_frames (fun _ => mkCapture true 3 [None; Some 11%nat])
                 "video.mp4" "frames" 2
  = Returned 0 [makedirs "frames"; VideoCapture_open "video.mp4";
                release; print (summary 0 "frames")].
Proof.
  apply (source_yields_nothing
           (fun _ => mkCapture true 3 [None; Some 11%nat])
           "video.mp4" "frames" 2).
  - reflexivity.
  - simpl; lia.
  - reflexivity.
Defined.



(** X8: with more frames requested than the source reports ([N > T]), a
    single frame is extracted as soon as the source yields one, however many
    frames follow it. *)
Theorem oversampling_any_stream {Frame : Type}
    (cv2_VideoCapture : string -> VideoCapture Frame)
    (video_path output_dir : string) (num_frames : Z)
    (frame0 : Frame) (others : list Frame) :
  let source := cv2_VideoCapture video_path in
  opened source = true ->
  0 < frame_count source ->
  frame_count source < num_frames ->
  yielded (stream source) = frame0 :: others ->
  extract_frames cv2_VideoCapture video_path output_dir num_frames
  = Returned 1
      [makedirs output_dir; VideoCapture_open video_path;
       imwrite (Py.os_path_join output_dir "frame_0000.png") frame0;
       release; print (summary 1 output_dir)].
Proof.
  intros source Ho HT HN Hy.
  apply yielded_cons in Hy as (rest & Es & _).
  set (frame_indices := frame_indices_of (frame_count source) num_frames).
  pose proof (frame_indices_of_long cv2_VideoCapture video_path num_frames)
    as Hlong.
  fold source frame_indices in Hlong.
  set (st' := mkState
                (mkCapture (opened source) (frame_count source) rest) 1 1 1
                [makedirs output_dir; VideoCapture_open video_path;
                 imwrite (frame_filename output_dir 0) frame0]).
  assert (Hfirst : while_loop output_dir num_frames frame_indices
                     (initial_state source video_path output_dir)
                   = while_loop output_dir num_frames frame_indices st').
  { rewrite while_loop_step.
    replace (loop_cond num_frames (initial_state source video_path output_dir))
      with true
      by (symmetry; apply cond_true; simpl; split; [assumption|lia]).
    unfold loop_body, read. simpl cap. rewrite Es. simpl target_idx.
    unfold frame_indices at 1. rewrite frame_indices_getitem by lia.
    rewrite Z.mul_0_l, Z.div_0_l by lia. reflexivity. }
  destruct (while_loop_exit output_dir num_frames frame_indices Hlong st')
    as (st1 & st2 & Hit & Hloop & He & _ & _ & Hl & _); [simpl; lia|].
  apply iterates_stuck in Hit as (_ & He1 & Hl1); auto.
  - rewrite extract_frames_loop by assumption. fold source frame_indices.
    rewrite Hfirst, Hloop, He, Hl, He1, Hl1. reflexivity.
  - simpl; lia.
  - simpl target_idx. simpl current_frame. unfold frame_indices.
    rewrite frame_indices_nth by lia.
    rewrite Z.mul_1_l, Z.div_small by lia. lia.
Qed.

Lemma oversampling_any_stream_witness :
  extract_frames
    (fun _ => mkCapture true 3 [Some 10%nat; None; Some 12%nat])
    "video.mp4" "frames" 200
  = Returned 1
      [makedirs "frames"; VideoCapture_open "video.mp4";
       imwrite (Py.os_path_join "frames" "frame_0000.png") 10%nat;
       release; print (summary 1 "frames")].
Proof.
  apply (oversampling_any_stream
           (fun _ => mkCapture true 3 [Some 10%nat; None; Some 12%nat])
           "video.mp4" "frames" 200 10%nat []).
  - reflexivity.
  - simpl; lia.
  - simpl; lia.
  - reflexivity.
Defined.

(** ** Where the scan stops *)




(** ** File names *)

Lemma string_length_append (a b : string) :
  String.length (a ++ b)%string = (String.length a + String.length b)%nat.
Proof. induction a as [|c a IH]; simpl; congruence. Qed.

Lemma string_append_cancel_l (s a b : string) :
  (s ++ a = s ++ b)%string -> a = b.
Proof.
  induction s as [|c s IH]; simpl; intros H; [exact H|].
  injection H as H. auto.
Qed.

Lemma string_append_cancel_r (s a b : string) :
  (a ++ s = b ++ s)%string -> a = b.
Proof.
  revert b. induction a as [|c a IH]; intros [|c' b] H; simpl in H.
  - reflexivity.
  - apply (f_equal String.length) in H. simpl in H.
    rewrite string_length_append in H. lia.
  - apply (f_equal String.length) in H. simpl in H.
    rewrite string_length_append in H. lia.
  - injection H as -> H. f_equal. auto.
Qed.

Lemma zeros_digits (n : nat) (d : Decimal.uint) :
  (Py.zeros n ++ NilEmpty.string_of_uint d)%string
  = NilEmpty.string_of_uint (Nat.iter n Decimal.D0 d).
Proof. induction n as [|n IH]; simpl; congruence. Qed.

Lemma of_uint_leading_zeros (n : nat) (d : Decimal.uint) :
  Z.of_uint (Nat.iter n Decimal.D0 d) = Z.of_uint d.
Proof.
  induction n as [|n IH]; simpl; [reflexivity|].
  unfold Z.of_uint in *. simpl. exact IH.
Qed.

Lemma to_int_nonneg (k : Z) :
  0 <= k -> exists d, Z.to_int k = Decimal.Pos d /\ d <> Decimal.Nil.
Proof.
  destruct k as [|p|p]; intros Hk; simpl.
  - exists (Decimal.D0 Decimal.Nil). split; [reflexivity|discriminate].
  - exists (Pos.to_uint p). split; [reflexivity|].
    apply DecimalPos.Unsigned.to_uint_nonnil.
  - lia.
Qed.

(** The padded number is the decimal writing of [k] with leading zeros. *)
Lemma format_04d_digits (k : Z) :
  0 <= k ->
  exists d,
    d <> Decimal.Nil /\
    Py.format_04d k = NilZero.string_of_int (Decimal.Pos d) /\
    Z.of_uint d = k.
Proof.
  intros Hk. unfold Py.format_04d, Py.str.
  destruct (Z.ltb_spec k 0) as [|_]; [lia|].
  destruct (to_int_nonneg k Hk) as (d & Ed & Hd).
  pose proof (DecimalZ.of_to k) as Hof. rewrite Ed in *.
  simpl NilZero.string_of_int.
  replace (NilZero.string_of_uint d) with (NilEmpty.string_of_uint d)
    by (destruct d; try reflexivity; contradiction).
  rewrite zeros_digits.
  set (d' := Nat.iter _ Decimal.D0 d).
  assert (Hd' : d' <> Decimal.Nil).
  { unfold d'. destruct (4 - _)%nat; simpl; [exact Hd|discriminate]. }
  exists d'. split; [exact Hd'|]. split.
  - destruct d'; try reflexivity; contradiction.
  - unfold d'. rewrite of_uint_leading_zeros. exact Hof.
Qed.

(** X10: the number in a file name reads back as the index it was made
    from: for every [k >= 0], parsing [f"{k:04d}"] as a decimal integer gives
    [k] (leading zeros included, widths beyond four digits included). *)
Theorem format_04d_round_trip (k : Z) :
  0 <= k ->
  option_map Z.of_int (NilZero.int_of_string (Py.format_04d k)) = Some k.
Proof.
  intros Hk.
  destruct (format_04d_digits k Hk) as (d & Hd & -> & Hv).
  rewrite NilZero.isi by congruence.
  simpl. now rewrite Hv.
Qed.

Lemma format_04d_round_trip_witness :
  Py.format_04d 7 = "0007" /\
  option_map Z.of_int (NilZero.int_of_string (Py.format_04d 7)) = Some 7.
Proof.
  split; [reflexivity|]. apply (format_04d_round_trip 7). lia.
Defined.

Lemma format_04d_inj (a b : Z) :
  0 <= a -> 0 <= b -> Py.format_04d a = Py.format_04d b -> a = b.
Proof.
  intros Ha Hb E.
  destruct (format_04d_digits a Ha) as (da & Hda & Ea & <-).
  destruct (format_04d_digits b Hb) as (db & Hdb & Eb & <-).
  rewrite Ea, Eb in E.
  apply (f_equal NilZero.int_of_string) in E.
  rewrite !NilZero.isi in E by congruence.
  congruence.
Qed.

(** X11: for the first ten thousand frames the number in the file name is
    exactly four characters wide. *)
Theorem format_04d_width (k : Z) :
  0 <= k < 10000 -> String.length (Py.format_04d k) = 4%nat.
Proof.
  intros Hk.
  assert (Hall : forallb (fun i => Nat.eqb (String.length
                                             (Py.format_04d (Z.of_nat i))) 4)
                         (seq 0 (Z.to_nat 10000)) = true)
    by (vm_compute; reflexivity).
  rewrite forallb_forall in Hall.
  specialize (Hall (Z.to_nat k)).
  rewrite Z2Nat.id in Hall by lia.
  apply Nat.eqb_eq, Hall, in_seq. lia.
Qed.

Lemma format_04d_width_witness :
  String.length (Py.format_04d 9999) = 4%nat.
Proof. apply (format_04d_width 9999). lia. Defined.

Lemma frame_filename_inj (output_dir : string) (a b : Z) :
  0 <= a -> 0 <= b ->
  frame_filename output_dir a = frame_filename output_dir b -> a = b.
Proof.
  intros Ha Hb. unfold frame_filename, Py.os_path_join. simpl.
  destruct (String.eqb output_dir EmptyString || Py.endswith_sep output_dir);
    intros E; apply string_append_cancel_l in E;
    injection E as E; apply string_append_cancel_r in E;
    now apply format_04d_inj.
Qed.

Lemma NoDup_map_inj_on {A B : Type} (f : A -> B) (l : list A) :
  (forall a b, In a l -> In b l -> f a = f b -> a = b) ->
  NoDup l -> NoDup (map f l).
Proof.
  intros Hinj Hnd. induction Hnd as [|x l Hx _ IH]; simpl; constructor.
  - rewrite in_map_iff. intros (y & E & Hy).
    apply Hx. rewrite (Hinj x y); auto; [now left|now right].
  - apply IH. intros a b Ha Hb. apply Hinj; now right.
Qed.

Lemma range_NoDup (n : Z) : NoDup (Py.range n).
Proof.
  unfold Py.range. apply NoDup_map_inj_on; [|apply seq_NoDup].
  intros a b _ _. apply Nat2Z.inj.
Qed.

Lemma Forall2_names {A B C : Type} (f : B -> C) (g : A -> C)
    (P : A -> B -> Prop) (l1 : list A) (l2 : list B) :
  Forall2 (fun a b => g a = f b /\ P a b) l1 l2 -> map g l1 = map f l2.
Proof.
  induction 1 as [|a b l1 l2 [E _] _ IH]; simpl; congruence.
Qed.

(** X12: the image files of one call have pairwise distinct names, so no
    frame written by the call overwrites another one of the same call. *)
Theorem written_names_distinct {Frame : Type}
    (cv2_VideoCapture : string -> VideoCapture Frame)
    (video_path output_dir : string) (num_frames : Z) :
  let source := cv2_VideoCapture video_path in
  opened source = true ->
  0 < frame_count source ->
  exists n lg,
    extract_frames cv2_VideoCapture video_path output_dir num_frames
    = Returned n lg /\
    NoDup (map fst (written lg)).
Proof.
  intros source Ho HT.
  destruct (extract_frames_scans cv2_VideoCapture video_path output_dir
              num_frames Ho HT) as (st & Hit & _ & Hrun).
  exists (extracted st); eexists. split; [exact Hrun|].
  rewrite written_app. simpl. rewrite app_nil_r.
  pose proof (scan_files cv2_VideoCapture video_path output_dir num_frames
                st Hit) as Hf.
  apply Forall2_names in Hf. rewrite Hf.
  apply NoDup_map_inj_on; [|apply range_NoDup].
  intros a b Ha Hb. apply range_In in Ha, Hb.
  apply frame_filename_inj; lia.
Qed.

Lemma written_names_distinct_witness :
  exists n lg,
    extract_frames
      (fun _ => mkCapture true 7 (map Some (seq 100 7)))
      "video.mp4" "frames" 3
    = Returned n lg /\
    NoDup (map fst (written lg)).
Proof.
  apply (written_names_distinct
           (fun _ => mkCapture true 7 (map Some (seq 100 7)))
           "video.mp4" "frames" 3).
  - reflexivity.
  - simpl; lia.
Defined.

(** ** Bounds on the count *)

(** Every frame counted was read. *)
Lemma iterates_extracted_le_reads {Frame : Type} (output_dir : string)
    (num_frames : Z) (frame_indices : list Z) (st0 st : State Frame) :
  iterates output_dir num_frames frame_indices st0 st ->
  extracted st - extracted st0 <= current_frame st - current_frame st0.
Proof.
  induction 1 as [|a b _ IH _ Hb]; [lia|].
  apply body_Continue in Hb
    as (fr & rest & t & _ & _ & _ & Ec & [(_ & Ee & _)|(_ & Ee & _)]);
    rewrite Ec, Ee; lia.
Qed.

(** X13: the count never exceeds the number of frames the source yields,
    nor the number of frames it reports, whatever is requested. *)
Theorem count_bounded_by_source {Frame : Type}
    (cv2_VideoCapture : string -> VideoCapture Frame)
    (video_path output_dir : string) (num_frames : Z) :
  let source := cv2_VideoCapture video_path in
  opened source = true ->
  0 < frame_count source ->
  exists n lg,
    extract_frames cv2_VideoCapture video_path output_dir num_frames
    = Returned n lg /\
    0 <= n /\
    n <= Z.of_nat (List.length (yielded (stream source))) /\
    n <= frame_count source.
Proof.
  intros source Ho HT.
  set (frame_indices := frame_indices_of (frame_count source) num_frames).
  set (init := initial_state source video_path output_dir).
  pose proof (frame_indices_of_long cv2_VideoCapture video_path num_frames)
    as Hlong.
  destruct (extract_frames_scans cv2_VideoCapture video_path output_dir
              num_frames Ho HT) as (st & Hit & _ & Hrun).
  fold source frame_indices init in Hit, Hlong.
  exists (extracted st); eexists. split; [exact Hrun|].
  pose proof (iterates_count _ _ _ _ _ Hit) as (He & Hk & _).
  pose proof (iterates_frames _ _ _ _ _ Hit) as (_ & Hfr).
  pose proof (iterates_extracted_le_reads _ _ _ _ _ Hit) as Hle.
  pose proof (iterates_target_range cv2_VideoCapture video_path output_dir
                num_frames st Hit) as [_ Hrange].
  simpl in He, Hk, Hfr, Hle. fold source in Hfr.
  split; [lia|]. split; [lia|].
  destruct (Z.le_gt_cases num_frames (frame_count source)) as [|Hgt]; [lia|].
  destruct (Z.le_gt_cases (target_idx st) 1) as [|Hk2]; [lia|exfalso].
  destruct (iterates_passed output_dir num_frames frame_indices Hlong
              init st ltac:(simpl; lia) Hit) as [_ Hinc].
  specialize (Hinc 0 1 ltac:(simpl; lia) ltac:(lia) ltac:(lia)).
  unfold frame_indices in Hinc.
  rewrite !frame_indices_nth in Hinc by lia.
  rewrite Z.mul_0_l, Z.div_0_l, Z.mul_1_l, Z.div_small in Hinc by lia.
  lia.
Qed.

Lemma count_bounded_by_source_witness :
  exists n lg,
    extract_frames
      (fun _ => mkCapture true 3 [Some 10%nat; Some 11%nat; None])
      "video.mp4" "frames" 3
    = Returned n lg /\
    0 <= n /\
    n <= Z.of_nat (List.length (yielded [Some 10%nat; Some 11%nat; None])) /\
    n <= 3.
Proof.
  apply (count_bounded_by_source
           (fun _ => mkCapture true 3 [Some 10%nat; Some 11%nat; None])
           "video.mp4" "frames" 3).
  - reflexivity.
  - simpl; lia.
Defined.

(** * The script on a platform *)

(** ** Division in binary64 *)

Lemma pow2_pos (n : Z) : 0 <= n -> 0 < 2 ^ n.
Proof. intros. apply Z.pow_pos_nonneg; lia. Qed.

Lemma pow2_split (n m : Z) : 0 <= n -> 0 <= m -> 2 ^ (n + m) = 2 ^ n * 2 ^ m.
Proof. intros. apply Z.pow_add_r; lia. Qed.

Lemma scaled_common (a b e K : Z) :
  0 <= K -> 0 <= e + K ->
  exists c, 0 < c /\
    a * 2 ^ K = fst (Py.scaled a b e) * c /\
    b * 2 ^ (e + K) = snd (Py.scaled a b e) * c.
Proof.
  intros HK HeK. unfold Py.scaled.
  destruct (Z.leb_spec 0 e) as [He|He]; simpl.
  - exists (2 ^ K). split; [now apply pow2_pos|]. split; [reflexivity|].
    rewrite pow2_split by lia. ring.
  - exists (2 ^ (e + K)). split; [now apply pow2_pos|]. split; [|reflexivity].
    rewrite <- Z.mul_assoc, <- pow2_split by lia. f_equal. f_equal. lia.
Qed.

Lemma round_half_even_scale (num den c : Z) :
  0 < den -> 0 < c ->
  Py.round_half_even (num * c) (den * c) = Py.round_half_even num den.
Proof.
  intros Hd Hc. unfold Py.round_half_even.
  rewrite Z.div_mul_cancel_r, Z.mul_mod_distr_r by lia.
  replace (2 * (num mod den * c) <? den * c) with (2 * (num mod den) <? den).
  2:{ destruct (Z.ltb_spec (2 * (num mod den)) den),
               (Z.ltb_spec (2 * (num mod den * c)) (den * c)); nia. }
  replace (den * c <? 2 * (num mod den * c)) with (den <? 2 * (num mod den)).
  2:{ destruct (Z.ltb_spec den (2 * (num mod den))),
               (Z.ltb_spec (den * c) (2 * (num mod den * c))); nia. }
  reflexivity.
Qed.

Lemma round_half_even_cases (num den : Z) :
  0 < den ->
  (Py.round_half_even num den = num / den /\ 2 * (num mod den) <= den) \/
  (Py.round_half_even num den = num / den + 1 /\ den <= 2 * (num mod den)).
Proof.
  intros Hd. unfold Py.round_half_even.
  destruct (Z.ltb_spec (2 * (num mod den)) den); [left; lia|].
  destruct (Z.ltb_spec den (2 * (num mod den))); [right; lia|].
  destruct (Z.even (num / den)); [left|right]; lia.
Qed.


Lemma scaled_test (a b e K X : Z) :
  0 < b -> 0 <= K -> 0 <= e + K ->
  (X * snd (Py.scaled a b e) <= fst (Py.scaled a b e) <->
   X * (b * 2 ^ (e + K)) <= a * 2 ^ K).
Proof.
  intros Hb HK HeK.
  destruct (scaled_common a b e K HK HeK) as (c & Hc & -> & ->).
  split; intros H; nia.
Qed.

Lemma scaled_den_pos (a b e : Z) : 0 < b -> 0 < snd (Py.scaled a b e).
Proof.
  intros Hb. unfold Py.scaled. destruct (Z.leb_spec 0 e); simpl; [|lia].
  pose proof (pow2_pos e). nia.
Qed.

(** The rounded quotient, in terms of a common scale [2^K]. *)
Lemma truediv_spec (a b : Z) :
  0 < a -> 0 < b ->
  forall K, 0 <= K -> 0 <= snd (Py.truediv a b) + K ->
    let e := snd (Py.truediv a b) in
    2 ^ 52 * (b * 2 ^ (e + K)) <= a * 2 ^ K < 2 ^ 53 * (b * 2 ^ (e + K)) /\
    fst (Py.truediv a b) = Py.round_half_even (a * 2 ^ K) (b * 2 ^ (e + K)).
Proof.
  intros Ha Hb K HK. unfold Py.truediv.
  destruct (Z.eqb_spec a 0) as [|_]; [lia|].
  set (e0 := Z.log2 a - Z.log2 b - 52).
  destruct (Py.scaled a b e0) as [n0 d0] eqn:E0.
  pose proof (Z.log2_spec a Ha) as La. pose proof (Z.log2_spec b Hb) as Lb.
  pose proof (Z.log2_nonneg a). pose proof (Z.log2_nonneg b).
  set (e := if 2 ^ 52 * d0 <=? n0 then e0 else e0 - 1).
  destruct (Py.scaled a b e) as [num den] eqn:E. simpl snd. simpl fst.
  intros HeK.
  assert (Hrnd : Py.round_half_even num den
                 = Py.round_half_even (a * 2 ^ K) (b * 2 ^ (e + K))).
  { destruct (scaled_common a b e K HK HeK) as (c & Hc & -> & ->).
    rewrite E. simpl. symmetry. apply round_half_even_scale; [|exact Hc].
    pose proof (scaled_den_pos a b e Hb). now rewrite E in *. }
  split; [|exact Hrnd]. clear Hrnd E num den.
  pose proof (pow2_pos K HK) as PK.
  pose proof (pow2_pos (e + K) HeK) as PeK.
  unfold e in *. clear e.
  destruct (Z.leb_spec (2 ^ 52 * d0) n0) as [Ht|Ht].
  - (* the first guess has 53 bits *)
    split.
    + pose proof (scaled_test a b e0 K (2 ^ 52) Hb HK HeK) as T.
      rewrite E0 in T. cbn [fst snd] in T. apply T. exact Ht.
    + assert (Hp : 2 ^ (Z.log2 a + 1 + K) = 2 ^ 53 * 2 ^ Z.log2 b * 2 ^ (e0 + K)).
      { rewrite <- !pow2_split by lia. f_equal. unfold e0. lia. }
      assert (Hq : 2 ^ (Z.log2 a + 1 + K) = 2 ^ (Z.log2 a + 1) * 2 ^ K)
        by (rewrite <- pow2_split by lia; reflexivity).
      pose proof (pow2_pos 53 ltac:(lia)). nia.
  - (* one bit short: the exponent is one less *)
    assert (HeK' : 0 <= e0 + K) by lia.
    pose proof (pow2_pos (e0 + K) HeK') as Pe0K.
    assert (H2 : 2 ^ (e0 + K) = 2 * 2 ^ (e0 - 1 + K)).
    { replace (e0 + K) with (1 + (e0 - 1 + K)) by lia.
      rewrite pow2_split by lia. reflexivity. }
    split.
    + assert (Hp : 2 ^ (Z.log2 a + K)
                   = 2 ^ 52 * 2 ^ (Z.log2 b + 1) * 2 ^ (e0 - 1 + K)).
      { rewrite <- !pow2_split by lia. f_equal. unfold e0. lia. }
      assert (Hq : 2 ^ (Z.log2 a + K) = 2 ^ Z.log2 a * 2 ^ K)
        by (rewrite <- pow2_split by lia; reflexivity).
      pose proof (pow2_pos 52 ltac:(lia)). nia.
    + pose proof (scaled_test a b e0 K (2 ^ 52) Hb HK HeK') as T.
      rewrite E0 in T. cbn [fst snd] in T.
      assert (~ 2 ^ 52 * (b * 2 ^ (e0 + K)) <= a * 2 ^ K) by (rewrite <- T; lia).
      replace (2 ^ 53) with (2 ^ 52 * 2) by reflexivity. nia.
Qed.


Lemma floor_truediv_zero (b : Z) : Py.floor_truediv 0 b = 0.
Proof. reflexivity. Qed.

(** Below [2^53] the rounding never reaches the next integer. *)
Lemma floor_truediv_exact (a b : Z) :
  0 <= a < 2 ^ 53 -> 0 < b -> Py.floor_truediv a b = a / b.
Proof.
  intros Ha Hb.
  destruct (Z.eq_dec a 0) as [->|Hne]; [now rewrite Z.div_0_l by lia|].
  unfold Py.floor_truediv.
  destruct (Py.truediv a b) as [m e] eqn:E.
  pose proof (truediv_spec a b ltac:(lia) Hb) as Hspec.
  rewrite E in Hspec. cbn [fst snd] in Hspec.
  pose proof (Z.div_mod a b ltac:(lia)) as Ea.
  pose proof (Z.mod_pos_bound a b Hb) as Ba.
  destruct (Z.leb_spec 0 e) as [He|He].
  - (* no bit after the point: the quotient is [a] itself, [b] is 1 *)
    specialize (Hspec 0 ltac:(lia) ltac:(lia)) as [[Hlo _] Hm].
    rewrite Z.add_0_r, Z.mul_1_r in *.
    pose proof (pow2_pos e He) as Pe.
    assert (Hb1 : b * 2 ^ e = 1) by nia.
    assert (b = 1) by nia. subst b.
    assert (He1 : 2 ^ e = 1) by lia.
    unfold Py.math_floor. destruct (Z.leb_spec 0 e); [|lia].
    rewrite Hm, Hb1, He1. unfold Py.round_half_even.
    rewrite Z.mod_1_r, Z.div_1_r. simpl. lia.
  - specialize (Hspec (- e) ltac:(lia) ltac:(lia)) as [[Hlo _] Hm].
    replace (e + - e) with 0 in * by lia.
    rewrite Z.mul_1_r in *.
    set (P := 2 ^ (- e)) in *.
    assert (HP : 0 < P) by (apply pow2_pos; lia).
    unfold Py.math_floor. destruct (Z.leb_spec 0 e); [lia|]. fold P.
    pose proof (Z.div_mod (a * P) b ltac:(lia)) as Eq.
    pose proof (Z.mod_pos_bound (a * P) b Hb) as Bq.
    set (q0 := a * P / b) in *. set (r0 := (a * P) mod b) in *.
    set (k := a / b) in *. set (r := a mod b) in *.
    assert (Hk1 : k * P <= q0) by nia.
    assert (Hk2 : q0 < (k + 1) * P) by nia.
    assert (Hm' : k * P <= m < (k + 1) * P).
    { destruct (round_half_even_cases (a * P) b Hb) as [[Hr _]|[Hr Hhalf]];
        fold q0 r0 in Hr; rewrite <- Hm in Hr; [lia|].
      fold r0 in Hhalf.
      destruct (Z.eq_dec (q0 + 1) ((k + 1) * P)) as [Htop|]; [exfalso|lia].
      assert (Hr0 : r0 = b - (b - r) * P) by nia.
      assert (2 * P <= b) by nia.
      change (2 ^ 52) with 4503599627370496 in Hlo.
      change (2 ^ 53) with 9007199254740992 in Ha. nia. }
    symmetry. apply Z.div_unique with (r := m - k * P); lia.
Qed.



(** ** The index list in binary64 *)




(** While the largest product stays below [2^53], the script's list is the
    list of exact floors. *)
Lemma frame_indices_binary64_exact (T N : Z) :
  0 <= T -> (N - 1) * T < 2 ^ 53 ->
  frame_indices_binary64 T N = frame_indices_of T N.
Proof.
  intros HT Hb. unfold frame_indices_binary64, frame_indices_of, Py.floor_div.
  apply map_ext_in. intros i Hi. apply range_In in Hi.
  apply floor_truediv_exact; [nia|lia].
Qed.




(** X1: while [(N - 1) * T < 2^53], consecutive targets are evenly spaced up
    to one frame: their difference is [T // N] or [T // N + 1]. *)
Theorem frame_indices_evenly_spaced (T N i : Z) :
  0 < T -> 0 < N -> (N - 1) * T < 2 ^ 53 ->
  0 <= i -> i + 1 < N ->
  exists ti tj,
    Py.getitem (frame_indices_binary64 T N) i = Some ti /\
    Py.getitem (frame_indices_binary64 T N) (i + 1) = Some tj /\
    T / N <= tj - ti <= T / N + 1.
Proof.
  intros HT HN Hb Hi Hi1.
  rewrite frame_indices_binary64_exact by lia.
  now apply frame_indices_of_spacing.
Qed.

Lemma frame_indices_evenly_spaced_witness :
  exists ti tj,
    Py.getitem (frame_indices_binary64 10 4) 1 = Some ti /\
    Py.getitem (frame_indices_binary64 10 4) (1 + 1) = Some tj /\
    10 / 4 <= tj - ti <= 10 / 4 + 1.
Proof. apply (frame_indices_evenly_spaced 10 4 1); lia. Defined.

(** ** Errors *)

Section Platform.

Context {Frame : Type}.
Variables (platform : Platform Frame).
Variables (video_path output_dir : string) (num_frames : Z).

Local Notation "'decoder'" := (VideoCapture_of platform video_path).
Local Notation "'log1'" :=
  ([makedirs output_dir; VideoCapture_open video_path] : list (Effect Frame)).
Local Notation "'run'" :=
  (extract_frames_on platform video_path output_dir num_frames).






End Platform.




(** ** More frames requested than the source has *)

(** C1: on a source that opens, reports 3 frames and yields them, a request
    for 200 frames (the default of the command line) lists the targets 0, 1
    and 2, yet the scan writes frame 0 only and prints the count 1, where C1
    has 3. *)
Theorem three_frames_two_hundred_requested {Frame : Type} (f0 f1 f2 : Frame) :
  let platform :=
    mkPlatform (fun _ => None)
               (fun _ => mkDecoder true (finite 3) [Some f0; Some f1; Some f2]) in
  nodup Z.eq_dec (frame_indices_binary64 3 200) = [0; 1; 2] /\
  extract_frames_on platform "video.mp4" "frames" 200
  = Returned 1
      [makedirs "frames"; VideoCapture_open "video.mp4";
       imwrite "frames/frame_0000.png" f0;
       release; print "Extracted 1 frames to 'frames'"].
Proof.
  intros platform. split.
  - vm_compute. reflexivity.
  - vm_compute. reflexivity.
Qed.

(** ** The platform and the exact floors *)

(** X14: where [os.makedirs] returns, the reported count is a finite number
    [T] and [(N - 1) * T < 2^53], the call on the platform is the call of
    [extract_frames] on the capture that the platform builds: the quotients
    are floored as exact quotients are. *)
Theorem extract_frames_on_exact {Frame : Type}
    (platform : Platform Frame)
    (video_path output_dir : string) (num_frames T : Z) :
  let decoder := VideoCapture_of platform video_path in
  os_makedirs platform output_dir = None ->
  CAP_PROP_FRAME_COUNT decoder = finite T ->
  (num_frames - 1) * T < 2 ^ 53 ->
  extract_frames_on platform video_path output_dir num_frames
  = extract_frames
      (fun _ => mkCapture (decoder_opened decoder) T (decoder_stream decoder))
      video_path output_dir num_frames.
Proof.
  intros decoder Hm Hc Hb.
  unfold extract_frames_on, extract_frames, isOpened, get_frame_count.
  rewrite Hm. fold decoder. rewrite Hc. simpl opened. simpl frame_count.
  destruct (decoder_opened decoder); simpl negb; cbv iota; [|reflexivity].
  simpl int_of_double. cbv iota.
  destruct (Z.leb_spec T 0); [reflexivity|].
  cbv zeta. rewrite frame_indices_binary64_exact by lia. reflexivity.
Qed.

Lemma extract_frames_on_exact_witness :
  extract_frames_on
    (mkPlatform (fun _ => None)
                (fun _ => mkDecoder true (finite 7) (map Some (seq 100 7))))
    "video.mp4" "frames" 3
  = extract_frames
      (fun _ => mkCapture true 7 (map Some (seq 100 7)))
      "video.mp4" "frames" 3.
Proof.
  apply (extract_frames_on_exact
           (mkPlatform (fun _ => None)
                       (fun _ => mkDecoder true (finite 7)
                                           (map Some (seq 100 7))))
           "video.mp4" "frames" 3 7).
  - reflexivity.
  - reflexivity.
  - simpl; lia.
Defined.
